(** * Agent fee calculator: the progressive bid-agency fee computation

    A shallow embedding of the calculation performed by the memoised
    [calculationResult] derivation of [src/AgentFeeCalculator.tsx]
    (the static tables [TIERS] and [RATES], the tier loop and the discount
    step), followed by the properties established about it.

    Numbers.  The source computes on JavaScript numbers, which are IEEE 754
    binary64.  The calculation is embedded twice.

    - Over [num] (Part I): the three special values [NaN], [+Infinity],
      [-Infinity] and the finite values, the latter carried by exact
      rationals [Q].  Finite arithmetic is exact there (no rounding, no
      overflow, no underflow, no signed zero); the special values follow the
      IEEE 754 rules that the source relies on ([Infinity - Infinity = NaN],
      comparisons with [NaN] are false, [Math.min]/[Math.max] propagate
      [NaN], ...).  This embedding carries the statements about the guard,
      the allocation to the tiers and the order of fees; it says nothing
      about the last digits of a product or a quotient.

    - Over [float] (module [Binary64]): the numbers of the host themselves,
      with its correctly rounded [*], [/], [+], [-] and its comparisons.
      Every statement about the value of a product or a quotient ([rawValue
      * 10000], [amountInTier * rateDecimal], [originalTotalFee *
      (discountRate / 100)]) is made on this embedding.

    Parsing.  [parseFloat] is a built-in of the host language; its result is
    an arbitrary number, so both embeddings take the two parsed values
    ([parseFloat(inputValue)] and [parseFloat(discount)]) as arguments. *)

From Stdlib Require Import QArith Qminmax Qround Qabs Lqa Lia ZArith.
From Stdlib Require Import List Sorted String Ascii DecimalString Bool.
From Stdlib Require Import Floats.
Import ListNotations.

Local Open Scope Q_scope.

(** * Part I: the program *)

(** ** JavaScript numbers over exact rationals *)

Inductive num : Type :=
| NaN
| PInf
| NInf
| Fin (q : Q).

Declare Scope num_scope.
Delimit Scope num_scope with num.
Bind Scope num_scope with num.

Module Num.

Definition isNaN (x : num) : bool :=
  match x with NaN => true | _ => false end.

Definition isFinite (x : num) : bool :=
  match x with Fin _ => true | _ => false end.

Definition Qltb (a b : Q) : bool :=
  match a ?= b with Lt => true | _ => false end.

Definition Qleb (a b : Q) : bool :=
  match a ?= b with Gt => false | _ => true end.

(** [x < y]; false as soon as one side is [NaN]. *)
Definition ltb (x y : num) : bool :=
  match x, y with
  | NaN, _ | _, NaN => false
  | _, NInf => false
  | NInf, _ => true
  | PInf, _ => false
  | Fin _, PInf => true
  | Fin a, Fin b => Qltb a b
  end.

(** [x <= y]; false as soon as one side is [NaN]. *)
Definition leb (x y : num) : bool :=
  match x, y with
  | NaN, _ | _, NaN => false
  | NInf, _ => true
  | _, PInf => true
  | _, NInf => false
  | PInf, _ => false
  | Fin a, Fin b => Qleb a b
  end.

(** [x > y] is [y < x]. *)
Definition gtb (x y : num) : bool := ltb y x.

Definition add (x y : num) : num :=
  match x, y with
  | NaN, _ | _, NaN => NaN
  | PInf, NInf | NInf, PInf => NaN
  | PInf, _ | _, PInf => PInf
  | NInf, _ | _, NInf => NInf
  | Fin a, Fin b => Fin (a + b)
  end.

Definition sub (x y : num) : num :=
  match x, y with
  | NaN, _ | _, NaN => NaN
  | PInf, PInf | NInf, NInf => NaN
  | PInf, _ | _, NInf => PInf
  | NInf, _ | _, PInf => NInf
  | Fin a, Fin b => Fin (a - b)
  end.

(** An infinity of sign [pos] scaled by the sign of the finite [q]. *)
Definition inf_signed (pos : bool) (q : Q) : num :=
  match q ?= 0 with
  | Eq => NaN
  | Gt => if pos then PInf else NInf
  | Lt => if pos then NInf else PInf
  end.

Definition mul (x y : num) : num :=
  match x, y with
  | NaN, _ | _, NaN => NaN
  | PInf, PInf | NInf, NInf => PInf
  | PInf, NInf | NInf, PInf => NInf
  | PInf, Fin q | Fin q, PInf => inf_signed true q
  | NInf, Fin q | Fin q, NInf => inf_signed false q
  | Fin a, Fin b => Fin (a * b)
  end.

(** Division.  A zero divisor is read as [+0] (the model has no signed
    zero); the source only ever divides by the literal [100]. *)
Definition div (x y : num) : num :=
  match x, y with
  | NaN, _ | _, NaN => NaN
  | (PInf | NInf), (PInf | NInf) => NaN
  | Fin _, (PInf | NInf) => Fin 0
  | PInf, Fin b => if Qltb b 0 then NInf else PInf
  | NInf, Fin b => if Qltb b 0 then PInf else NInf
  | Fin a, Fin b =>
      match b ?= 0 with
      | Eq => match a ?= 0 with Eq => NaN | Gt => PInf | Lt => NInf end
      | _ => Fin (a / b)
      end
  end.

(** [Math.max(x, y)] and [Math.min(x, y)]: [NaN] if either is [NaN]. *)
Definition max (x y : num) : num :=
  match x, y with
  | NaN, _ | _, NaN => NaN
  | PInf, _ | _, PInf => PInf
  | NInf, z | z, NInf => z
  | Fin a, Fin b => Fin (Qmax a b)
  end.

Definition min (x y : num) : num :=
  match x, y with
  | NaN, _ | _, NaN => NaN
  | NInf, _ | _, NInf => NInf
  | PInf, z | z, PInf => z
  | Fin a, Fin b => Fin (Qmin a b)
  end.

(** Decimal digits of a non-negative integer. *)
Definition digits (n : Z) : string :=
  NilZero.string_of_uint (N.to_uint (Z.to_N n)).

(** [x.toFixed(2)]: the nearest multiple of 1/100 (ties upwards), printed
    with exactly two decimals; non-finite values print their names.  (The
    host switches to exponent notation at 10^21 and above, which no rate of
    the tables reaches; that branch is not modelled.) *)
Definition toFixed2 (x : num) : string :=
  match x with
  | NaN => "NaN"
  | PInf => "Infinity"
  | NInf => "-Infinity"
  | Fin q =>
      let n := Qfloor (Qabs q * 100 + (1 # 2)) in
      let frac := (n mod 100)%Z in
      ((if Qltb q 0 then "-" else "")
         ++ digits (n / 100)%Z ++ "."
         ++ (if (frac <? 10)%Z then "0" else "") ++ digits frac)%string
  end.

(** The strict equality [x === y] of the host on numbers: rational
    equality on finite values, and [NaN] equal to nothing. *)
Definition eq (x y : num) : Prop :=
  match x, y with
  | PInf, PInf | NInf, NInf => True
  | Fin a, Fin b => a == b
  | _, _ => False
  end.

(** [x < y] as a proposition. *)
Definition lt (x y : num) : Prop := ltb x y = true.

End Num.

Notation "x + y" := (Num.add x y) : num_scope.
Notation "x - y" := (Num.sub x y) : num_scope.
Notation "x * y" := (Num.mul x y) : num_scope.
Notation "x / y" := (Num.div x y) : num_scope.
Notation "x <? y" := (Num.ltb x y) : num_scope.
Notation "x <=? y" := (Num.leb x y) : num_scope.
Notation "x >? y" := (Num.gtb x y) (at level 70) : num_scope.
Notation "x === y" := (Num.eq x y) (at level 70) : num_scope.

Coercion Fin : Q >-> num.

(** ** Types and constants of the source *)

(** [type ServiceType = 1 | 2 | 3]: goods, services, engineering works. *)
Inductive ServiceType : Type :=
| Goods      (* 1 *)
| Services   (* 2 *)
| Works.     (* 3 *)

(** [type InputUnit = 'yuan' | 'wanyuan']. *)
Inductive InputUnit : Type :=
| yuan
| wanyuan.

Record Tier : Type := mkTier {
  limit : num;
  label : string
}.

(** Thresholds for the progressive calculation (in Yuan). *)
Definition TIERS : list Tier :=
  [ mkTier (Fin 1000000) "100万元以下";
    mkTier (Fin 5000000) "100-500万元";
    mkTier (Fin 10000000) "500-1000万元";
    mkTier (Fin 50000000) "1000-5000万元";
    mkTier (Fin 100000000) "5000万元-1亿元";
    mkTier (Fin 1000000000) "1-10亿元";
    mkTier PInf "10亿元以上" ].

(** Rate tables for each service type (values are percentages). *)
Definition RATES (serviceType : ServiceType) : list num :=
  match serviceType with
  | Goods    => [Fin 1.50; Fin 1.10; Fin 0.80; Fin 0.50; Fin 0.25; Fin 0.05; Fin 0.01]
  | Services => [Fin 1.50; Fin 0.80; Fin 0.45; Fin 0.25; Fin 0.10; Fin 0.05; Fin 0.01]
  | Works    => [Fin 1.00; Fin 0.70; Fin 0.55; Fin 0.35; Fin 0.20; Fin 0.05; Fin 0.01]
  end.

(** ** The calculation *)

(** One line of the breakdown, as pushed by the loop. *)
Record BreakdownItem : Type := mkItem {
  tierLabel : string;
  ratePercent : string;
  amountInTier : num;
  feeForTier : num
}.

(** The variables the tier loop updates. *)
Module Loop.

Record state : Type := mk {
  remainingAmount : num;
  originalTotalFee : num;
  breakdown : list BreakdownItem;
  previousLimit : num
}.

End Loop.

(** The value returned by the calculation. *)
Record Result : Type := mkResult {
  originalTotalFee : num;
  discountedFee : num;
  bidAmount : num;
  breakdown : list BreakdownItem;
  discountRate : num
}.

Local Open Scope num_scope.

(** [currentRates[i]]: a read past the end yields [undefined], which the
    arithmetic of the loop body turns into [NaN]. *)
Definition rateAt (currentRates : list num) (i : nat) : num :=
  nth i currentRates NaN.

(** The body of [for (let i = 0; i < TIERS.length; i++)], run on the tiers
    from index [i] on.  Returning the state unchanged is the [break]. *)
Fixpoint tierLoop (currentRates : list num) (tiers : list Tier) (i : nat)
         (s : Loop.state) : Loop.state :=
  match tiers with
  | [] => s
  | tier :: rest =>
      let ratePercent := rateAt currentRates i in
      let rateDecimal := ratePercent / Fin 100 in
      let tierSpan := limit tier - Loop.previousLimit s in
      let amountInTier :=
        Num.min (Num.max (Fin 0) (Loop.remainingAmount s)) tierSpan in
      if amountInTier >? Fin 0 then
        let feeForTier := amountInTier * rateDecimal in
        tierLoop currentRates rest (S i)
          (Loop.mk (Loop.remainingAmount s - amountInTier)
                   (Loop.originalTotalFee s + feeForTier)
                   (Loop.breakdown s ++
                      [mkItem (label tier)
                              (Num.toFixed2 ratePercent ++ "%")%string
                              amountInTier feeForTier])
                   (limit tier))
      else if (Loop.remainingAmount s <=? Fin 0) && (0 <? i)%nat then
        s
      else
        tierLoop currentRates rest (S i)
          (Loop.mk (Loop.remainingAmount s) (Loop.originalTotalFee s)
                   (Loop.breakdown s) (limit tier))
  end.

(** The state on entry to the loop. *)
Definition initialState (bidAmount : num) : Loop.state :=
  Loop.mk bidAmount (Fin 0) [] (Fin 0).

(** [calculationResult], with [rawValue = parseFloat(inputValue)] and
    [parsedDiscount = parseFloat(discount)].  [None] is the [null] result. *)
Definition calculationResult (serviceType : ServiceType) (rawValue : num)
           (unit : InputUnit) (parsedDiscount : num) : option Result :=
  if Num.isNaN rawValue || (rawValue <? Fin 0) then None
  else
    let bidAmount :=
      match unit with
      | wanyuan => rawValue * Fin 10000
      | yuan => rawValue
      end in
    let currentRates := RATES serviceType in
    let s := tierLoop currentRates TIERS 0 (initialState bidAmount) in
    let discountRate :=
      if Num.isNaN parsedDiscount || (parsedDiscount <? Fin 0)
      then Fin 100 else parsedDiscount in
    let discountedFee := Loop.originalTotalFee s * (discountRate / Fin 100) in
    Some (mkResult (Loop.originalTotalFee s) discountedFee bidAmount
                   (Loop.breakdown s) discountRate).

(** * Part I, continued: the program in binary64 arithmetic

    The same calculation, transcribed a second time with the numbers of the
    host itself: [float] is IEEE 754 binary64, and [*], [/], [+], [-] and
    the comparisons are its correctly rounded operations.  This is the
    embedding to consult wherever a value depends on rounding, overflow or
    underflow. *)

Set Warnings "-inexact-float".

Module Binary64.

Local Open Scope float_scope.

(** [isNaN(x)]. *)
Definition isNaN (x : float) : bool := is_nan x.

(** [Math.max(x, y)]: [NaN] if either is [NaN]; [+0] is larger than [-0]. *)
Definition max (x y : float) : float :=
  if is_nan x || is_nan y then nan
  else if x <? y then y
  else if y <? x then x
  else match classify x with NZero => y | _ => x end.

(** [Math.min(x, y)]: [NaN] if either is [NaN]; [-0] is smaller than [+0]. *)
Definition min (x y : float) : float :=
  if is_nan x || is_nan y then nan
  else if x <? y then x
  else if y <? x then y
  else match classify x with PZero => y | _ => x end.

(** The number a double denotes: both zeros denote 0. *)
Definition value (x : float) : num :=
  match Prim2SF x with
  | S754_zero _ => Fin 0
  | S754_infinity false => PInf
  | S754_infinity true => NInf
  | S754_nan => NaN
  | S754_finite s m e =>
      let mant := if s then Zneg m else Zpos m in
      match e with
      | Zneg k => Fin (mant # (2 ^ k))
      | _ => Fin ((mant * 2 ^ e)%Z # 1)
      end
  end.

(** [x.toFixed(2)], which prints the exact value of the double. *)
Definition toFixed2 (x : float) : string := Num.toFixed2 (value x).

Record Tier : Type := mkTier {
  limit : float;
  label : string
}.

(** Thresholds for the progressive calculation (in Yuan). *)
Definition TIERS : list Tier :=
  [ mkTier 1000000 "100万元以下";
    mkTier 5000000 "100-500万元";
    mkTier 10000000 "500-1000万元";
    mkTier 50000000 "1000-5000万元";
    mkTier 100000000 "5000万元-1亿元";
    mkTier 1000000000 "1-10亿元";
    mkTier infinity "10亿元以上" ].

(** Rate tables for each service type (values are percentages). *)
Definition RATES (serviceType : ServiceType) : list float :=
  match serviceType with
  | Goods    => [1.50; 1.10; 0.80; 0.50; 0.25; 0.05; 0.01]
  | Services => [1.50; 0.80; 0.45; 0.25; 0.10; 0.05; 0.01]
  | Works    => [1.00; 0.70; 0.55; 0.35; 0.20; 0.05; 0.01]
  end.

(** One line of the breakdown, as pushed by the loop. *)
Record BreakdownItem : Type := mkItem {
  tierLabel : string;
  ratePercent : string;
  amountInTier : float;
  feeForTier : float
}.

(** The variables the tier loop updates. *)
Module Loop.

Record state : Type := mk {
  remainingAmount : float;
  originalTotalFee : float;
  breakdown : list BreakdownItem;
  previousLimit : float
}.

End Loop.

(** The value returned by the calculation. *)
Record Result : Type := mkResult {
  originalTotalFee : float;
  discountedFee : float;
  bidAmount : float;
  breakdown : list BreakdownItem;
  discountRate : float
}.

(** [currentRates[i]]: a read past the end yields [undefined], which the
    arithmetic of the loop body turns into [NaN]. *)
Definition rateAt (currentRates : list float) (i : nat) : float :=
  nth i currentRates nan.

(** The body of [for (let i = 0; i < TIERS.length; i++)], run on the tiers
    from index [i] on.  Returning the state unchanged is the [break]. *)
Fixpoint tierLoop (currentRates : list float) (tiers : list Tier) (i : nat)
         (s : Loop.state) : Loop.state :=
  match tiers with
  | [] => s
  | tier :: rest =>
      let ratePercent := rateAt currentRates i in
      let rateDecimal := ratePercent / 100 in
      let tierSpan := limit tier - Loop.previousLimit s in
      let amountInTier := min (max 0 (Loop.remainingAmount s)) tierSpan in
      if 0 <? amountInTier then
        let feeForTier := amountInTier * rateDecimal in
        tierLoop currentRates rest (S i)
          (Loop.mk (Loop.remainingAmount s - amountInTier)
                   (Loop.originalTotalFee s + feeForTier)
                   (Loop.breakdown s ++
                      [mkItem (label tier)
                              (toFixed2 ratePercent ++ "%")%string
                              amountInTier feeForTier])
                   (limit tier))
      else if (Loop.remainingAmount s <=? 0) && (0 <? i)%nat then
        s
      else
        tierLoop currentRates rest (S i)
          (Loop.mk (Loop.remainingAmount s) (Loop.originalTotalFee s)
                   (Loop.breakdown s) (limit tier))
  end.

(** The state on entry to the loop. *)
Definition initialState (bidAmount : float) : Loop.state :=
  Loop.mk bidAmount 0 [] 0.

(** [calculationResult], with [rawValue = parseFloat(inputValue)] and
    [parsedDiscount = parseFloat(discount)].  [None] is the [null] result. *)
Definition calculationResult (serviceType : ServiceType) (rawValue : float)
           (unit : InputUnit) (parsedDiscount : float) : option Result :=
  if isNaN rawValue || (rawValue <? 0) then None
  else
    let bidAmount :=
      match unit with
      | wanyuan => rawValue * 10000
      | yuan => rawValue
      end in
    let currentRates := RATES serviceType in
    let s := tierLoop currentRates TIERS 0 (initialState bidAmount) in
    let discountRate :=
      if isNaN parsedDiscount || (parsedDiscount <? 0)
      then 100 else parsedDiscount in
    let discountedFee := Loop.originalTotalFee s * (discountRate / 100) in
    Some (mkResult (Loop.originalTotalFee s) discountedFee bidAmount
                   (Loop.breakdown s) discountRate).

(** [calculationResult && calculationResult.originalTotalFee > 0]: the
    condition under which the summary row and the breakdown section are
    rendered ([a > b] is [b < a]). *)
Definition showsDetails (calculationResult : option Result) : bool :=
  match calculationResult with
  | None => false
  | Some r => 0 <? originalTotalFee r
  end.

End Binary64.

(** * Part II: the vocabulary of the statements *)

(** The sum of [amountInTier] over a breakdown, in list order. *)
Definition sumAmounts (items : list BreakdownItem) : num :=
  fold_left (fun acc it => acc + amountInTier it) items (Fin 0).

(** The amount the tiers are applied to ([bidAmount]). *)
Definition convert (rawValue : num) (unit : InputUnit) : num :=
  match unit with
  | wanyuan => rawValue * Fin 10000
  | yuan => rawValue
  end.

(** The same on a finite input. *)
Definition baseAmount (rawValue : Q) (unit : InputUnit) : Q :=
  match unit with
  | wanyuan => rawValue * 10000
  | yuan => rawValue
  end.

(** The rate the discount step multiplies by ([discountRate]). *)
Definition effectiveDiscount (parsedDiscount : num) : num :=
  if Num.isNaN parsedDiscount || (parsedDiscount <? Fin 0)
  then Fin 100 else parsedDiscount.

(** The state in which the loop ends. *)
Definition finalState (serviceType : ServiceType) (bidAmount : num) : Loop.state :=
  tierLoop (RATES serviceType) TIERS 0 (initialState bidAmount).

(** ** Well-formed schedules *)

(** A tier whose limit [lim] lies strictly above the finite bound [p]:
    a larger finite limit, or the unbounded one. *)
Definition above (p : Q) (lim : num) : Prop :=
  match lim with
  | Fin l => (p < l)%Q
  | PInf => True
  | _ => False
  end.

(** [ascending prev tiers]: starting from the previous limit [prev], every
    limit lies strictly above the one before it, and nothing follows an
    unbounded tier. *)
Inductive ascending : num -> list Tier -> Prop :=
| asc_nil prev : ascending prev []
| asc_cons p lim lbl rest :
    above p lim -> ascending lim rest ->
    ascending (Fin p) (mkTier lim lbl :: rest).

Definition unbounded (t : Tier) : Prop := limit t = PInf.

(** The rates read at indices [i .. i + n - 1] are finite and non-negative. *)
Definition rates_cover (rates : list num) (i n : nat) : Prop :=
  forall j, (i <= j < i + n)%nat ->
            exists c, rateAt rates j = Fin c /\ (0 <= c)%Q.

(** The amount a tier takes from a finite, non-negative remainder. *)
Definition amountOf (r p : Q) (lim : num) : Q :=
  match lim with
  | Fin l => Qmin (Qmax 0 r) (l - p)
  | _ => Qmax 0 r
  end.

(** ** Numbers, lines and results up to rational equality *)

(** The same special value, or finite values equal as rationals. *)
Definition num_equiv (x y : num) : Prop :=
  match x, y with
  | NaN, NaN | PInf, PInf | NInf, NInf => True
  | Fin a, Fin b => (a == b)%Q
  | _, _ => False
  end.

Definition item_equiv (x y : BreakdownItem) : Prop :=
  tierLabel x = tierLabel y /\ ratePercent x = ratePercent y /\
  num_equiv (amountInTier x) (amountInTier y) /\
  num_equiv (feeForTier x) (feeForTier y).

Definition state_equiv (s1 s2 : Loop.state) : Prop :=
  num_equiv (Loop.remainingAmount s1) (Loop.remainingAmount s2) /\
  num_equiv (Loop.originalTotalFee s1) (Loop.originalTotalFee s2) /\
  Forall2 item_equiv (Loop.breakdown s1) (Loop.breakdown s2) /\
  num_equiv (Loop.previousLimit s1) (Loop.previousLimit s2).

Definition result_equiv (r1 r2 : Result) : Prop :=
  num_equiv (originalTotalFee r1) (originalTotalFee r2) /\
  num_equiv (discountedFee r1) (discountedFee r2) /\
  num_equiv (bidAmount r1) (bidAmount r2) /\
  Forall2 item_equiv (breakdown r1) (breakdown r2) /\
  num_equiv (discountRate r1) (discountRate r2).

(** Both [null], or two results equal field by field. *)
Definition outcome_equiv (o1 o2 : option Result) : Prop :=
  match o1, o2 with
  | None, None => True
  | Some r1, Some r2 => result_equiv r1 r2
  | _, _ => False
  end.

(** ** The tiers below a bound *)

(** The tiers whose limit is at most [bound]. *)
Definition tiersUpTo (bound : num) : list Tier :=
  filter (fun t => limit t <=? bound) TIERS.

(** ** Values the component derives from the result *)

(** [const isDiscountApplied =
       calculationResult && calculationResult.discountRate < 100], as the
    condition it is used for. *)
Definition isDiscountApplied (calculationResult : option Result) : bool :=
  match calculationResult with
  | None => false
  | Some r => discountRate r <? Fin 100
  end.

(** [calculationResult && calculationResult.originalTotalFee > 0]: the
    condition under which the summary row and the breakdown section are
    rendered. *)
Definition showsDetails (calculationResult : option Result) : bool :=
  match calculationResult with
  | None => false
  | Some r => originalTotalFee r >? Fin 0
  end.

(** [calculationResult.originalTotalFee - calculationResult.discountedFee]:
    the difference shown beside the struck-through original fee. *)
Definition feeDifference (r : Result) : num :=
  originalTotalFee r - discountedFee r.

(** ** Vocabulary of the further properties *)

(** The sum of [feeForTier] over a breakdown, in list order. *)
Definition sumFees (items : list BreakdownItem) : num :=
  fold_left (fun acc it => acc + feeForTier it) items (Fin 0).

(** What a result allocates: the base amount, and for each line its tier
    and the amount that falls into it. *)
Definition allocation (r : Result) : num * list (string * num) :=
  (bidAmount r, map (fun it => (tierLabel it, amountInTier it)) (breakdown r)).

(** At indices [i .. i + n - 1] both rate lists hold finite, non-negative
    rates, those of the first list no larger than those of the second. *)
Definition rates_below (rates1 rates2 : list num) (i n : nat) : Prop :=
  forall j, (i <= j < i + n)%nat ->
            exists c1 c2, rateAt rates1 j = Fin c1 /\ rateAt rates2 j = Fin c2 /\
                          (0 <= c1)%Q /\ (c1 <= c2)%Q.

(** [min(b, lim)], where the limit [lim] may be unbounded. *)
Definition capped (b : Q) (lim : num) : Q :=
  match lim with
  | Fin l => Qmin b l
  | _ => b
  end.

(** [marginal_lines rates b lower i tiers lines]: [lines] is the marginal
    allocation of the base amount [b] to [tiers], the first of which begins
    at [lower] and has index [i].  There is one line per tier that begins
    below [b], in order; it carries the tier's label and rate, the amount
    from the tier's lower bound up to [min(b, limit)], and that amount times
    the rate over 100.  Nothing is listed for a tier that begins at or above
    [b]. *)
Inductive marginal_lines (rates : list num) (b : Q) :
  Q -> nat -> list Tier -> list BreakdownItem -> Prop :=
| ml_nil lower i tiers :
    (b <= lower)%Q \/ tiers = [] ->
    marginal_lines rates b lower i tiers []
| ml_cons lower i tier rest c line lines :
    (lower < b)%Q ->
    rateAt rates i = Fin c ->
    tierLabel line = label tier ->
    ratePercent line = (Num.toFixed2 (Fin c) ++ "%")%string ->
    amountInTier line === Fin (capped b (limit tier) - lower) ->
    feeForTier line === Fin ((capped b (limit tier) - lower) * (c / 100)) ->
    marginal_lines rates b (capped b (limit tier)) (S i) rest lines ->
    marginal_lines rates b lower i (tier :: rest) (line :: lines).

(** The label and the printed rate of a breakdown line. *)
Definition heading (line : BreakdownItem) : string * string :=
  (tierLabel line, ratePercent line).

(** [headings rates b lower i tiers]: label and printed rate of each of
    [tiers] that begins below the base amount [b], in order, up to the first
    one that does not; the first tier begins at [lower] and has index [i],
    each later one begins at the limit of the tier before it. *)
Fixpoint headings (rates : list num) (b lower : num) (i : nat)
         (tiers : list Tier) : list (string * string) :=
  match tiers with
  | [] => []
  | tier :: rest =>
      if lower <? b then
        (label tier, (Num.toFixed2 (rateAt rates i) ++ "%")%string)
          :: headings rates b (limit tier) (S i) rest
      else []
  end.

(** ** Vocabulary of the binary64 statements *)

(** The numbers a binary64 result denotes, field by field. *)
Definition exactItem (it : Binary64.BreakdownItem) : BreakdownItem :=
  mkItem (Binary64.tierLabel it) (Binary64.ratePercent it)
         (Binary64.value (Binary64.amountInTier it))
         (Binary64.value (Binary64.feeForTier it)).

Definition exactResult (r : Binary64.Result) : Result :=
  mkResult (Binary64.value (Binary64.originalTotalFee r))
           (Binary64.value (Binary64.discountedFee r))
           (Binary64.value (Binary64.bidAmount r))
           (map exactItem (Binary64.breakdown r))
           (Binary64.value (Binary64.discountRate r)).

(** What the Goods scenario gives in binary64: the fee of the second line
    is the double next above 44000. *)
Definition binary64_goods_result : Result :=
  mkResult (Fin 67000) (Fin 56950) (Fin 6000000)
    [ mkItem "100万元以下" "1.50%" (Fin 1000000) (Fin 15000);
      mkItem "100-500万元" "1.10%" (Fin 4000000)
             (Fin (44000 + (1 # 137438953472)));
      mkItem "500-1000万元" "0.80%" (Fin 1000000) (Fin 8000) ]
    (Fin 85).

(** A binary64 datum that is neither [NaN] nor negative: a zero,
    [+Infinity], or a positive finite number. *)
Definition not_negative (x : spec_float) : bool :=
  match x with
  | S754_zero _ | S754_infinity false | S754_finite false _ _ => true
  | _ => false
  end.

(** A binary64 datum that is positive: [+Infinity] or a positive finite
    number. *)
Definition positive_datum (x : spec_float) : bool :=
  match x with
  | S754_infinity false | S754_finite false _ _ => true
  | _ => false
  end.

(** A datum with the sign [s], and not [NaN]. *)
Definition signed (s : bool) (x : spec_float) : Prop :=
  match x with
  | S754_zero s' | S754_infinity s' | S754_finite s' _ _ => s' = s
  | S754_nan => False
  end.

(** At indices [i .. i + n - 1], the rate divided by 100 is a positive
    finite double. *)
Definition decimals_positive (rates : list float) (i n : nat) : Prop :=
  forall j, (i <= j < i + n)%nat ->
    exists m e,
      Prim2SF (Binary64.rateAt rates j / 100)%float = S754_finite false m e.

(** A fee that is a number and is not negative. *)
Definition fee_ok (fee : float) : Prop :=
  not_negative (Prim2SF fee) = true.

(** A breakdown line with a positive amount and a fee that is a number and
    is not negative. *)
Definition line_ok (item : Binary64.BreakdownItem) : Prop :=
  (0 <? Binary64.amountInTier item)%float = true /\
  fee_ok (Binary64.feeForTier item).

(** * Part III: facts about the program *)

(** ** Elementary facts on comparisons and on one loop step *)

Lemma Qltb_true a b : Num.Qltb a b = true <-> (a < b)%Q.
Proof.
  unfold Num.Qltb.
  destruct (Qcompare_spec a b); split; intros; try easy; lra.
Qed.

Lemma Qltb_false a b : Num.Qltb a b = false <-> (b <= a)%Q.
Proof.
  unfold Num.Qltb.
  destruct (Qcompare_spec a b); split; intros; try easy; lra.
Qed.

Lemma Qleb_true a b : Num.Qleb a b = true <-> (a <= b)%Q.
Proof.
  unfold Num.Qleb.
  destruct (Qcompare_spec a b); split; intros; try easy; lra.
Qed.

Lemma Qleb_false a b : Num.Qleb a b = false <-> (b < a)%Q.
Proof.
  unfold Num.Qleb.
  destruct (Qcompare_spec a b); split; intros; try easy; lra.
Qed.

Lemma sumAmounts_snoc items it :
  sumAmounts (items ++ [it]) = sumAmounts items + amountInTier it.
Proof. unfold sumAmounts. now rewrite fold_left_app. Qed.

(** Case analysis on every [Qmin]/[Qmax] of the goal, then linear
    arithmetic. *)
Ltac qminmax :=
  repeat match goal with
    | |- context [Qmin ?a ?b] =>
        let H := fresh in
        destruct (Q.min_spec a b) as [[? H]|[? H]];
        rewrite H in *; clear H
    | |- context [Qmax ?a ?b] =>
        let H := fresh in
        destruct (Q.max_spec a b) as [[? H]|[? H]];
        rewrite H in *; clear H
    | H0 : context [Qmin ?a ?b] |- _ =>
        let H := fresh in
        destruct (Q.min_spec a b) as [[? H]|[? H]];
        rewrite H in *; clear H
    | H0 : context [Qmax ?a ?b] |- _ =>
        let H := fresh in
        destruct (Q.max_spec a b) as [[? H]|[? H]];
        rewrite H in *; clear H
    end;
  try lra.

Lemma amount_eq r p lim :
  above p lim ->
  Num.min (Num.max (Fin 0) (Fin r)) (lim - Fin p) = Fin (amountOf r p lim).
Proof. destruct lim; simpl; intros; easy. Qed.

Lemma rate_div c : Fin c / Fin 100 = Fin (c / 100).
Proof. reflexivity. Qed.

Lemma amountOf_bounds r p lim :
  (0 <= r)%Q -> above p lim ->
  (0 <= amountOf r p lim)%Q /\ (amountOf r p lim <= r)%Q /\
  ((0 < r)%Q -> (0 < amountOf r p lim)%Q) /\
  (lim = PInf -> (amountOf r p lim == r)%Q).
Proof.
  destruct lim; simpl; intros; try easy; repeat split; intros;
    try discriminate; qminmax.
Qed.

Lemma amountOf_mono ra rb p lim :
  (0 <= ra)%Q -> (ra <= rb)%Q -> above p lim ->
  (amountOf ra p lim <= amountOf rb p lim)%Q /\
  (ra - amountOf ra p lim <= rb - amountOf rb p lim)%Q.
Proof.
  destruct lim; simpl; intros; try easy; split; qminmax.
Qed.

Lemma fee_nonneg amt c : (0 <= amt)%Q -> (0 <= c)%Q -> (0 <= amt * (c / 100))%Q.
Proof.
  intros. apply Qmult_le_0_compat; [assumption|].
  unfold Qdiv. apply Qmult_le_0_compat; [assumption|]. easy.
Qed.

Lemma fee_mono x y c :
  (x <= y)%Q -> (0 <= c)%Q -> (x * (c / 100) <= y * (c / 100))%Q.
Proof.
  intros. apply Qmult_le_compat_r; [assumption|].
  unfold Qdiv. apply Qmult_le_0_compat; [assumption|]. easy.
Qed.

(** ** Compatibility of the number operations with rational equality *)

Lemma num_equiv_refl x : num_equiv x x.
Proof. destruct x; simpl; auto. reflexivity. Qed.

Lemma num_equiv_sym x y : num_equiv x y -> num_equiv y x.
Proof. destruct x, y; simpl; auto. intros H; now rewrite H. Qed.

Lemma num_equiv_trans x y z : num_equiv x y -> num_equiv y z -> num_equiv x z.
Proof.
  destruct x, y, z; simpl; auto; try contradiction.
  intros H1 H2; now rewrite H1.
Qed.

#[export] Instance num_equiv_Equivalence : Equivalence num_equiv.
Proof.
  split; [exact num_equiv_refl | exact num_equiv_sym | exact num_equiv_trans].
Qed.

#[export] Instance item_equiv_Equivalence : Equivalence item_equiv.
Proof.
  split.
  - intros x. repeat split; reflexivity.
  - intros x y (H1 & H2 & H3 & H4). repeat split; now symmetry.
  - intros x y z (H1 & H2 & H3 & H4) (K1 & K2 & K3 & K4).
    repeat split; etransitivity; eassumption.
Qed.

Lemma items_equiv_refl l : Forall2 item_equiv l l.
Proof. induction l; constructor; auto. reflexivity. Qed.

Lemma items_equiv_sym l1 l2 :
  Forall2 item_equiv l1 l2 -> Forall2 item_equiv l2 l1.
Proof. induction 1; constructor; auto. now symmetry. Qed.

Lemma items_equiv_trans l1 l2 l3 :
  Forall2 item_equiv l1 l2 -> Forall2 item_equiv l2 l3 ->
  Forall2 item_equiv l1 l3.
Proof.
  intros H; revert l3. induction H; intros l3 H3; inversion H3; subst;
    constructor; auto. etransitivity; eassumption.
Qed.

#[export] Instance result_equiv_Equivalence : Equivalence result_equiv.
Proof.
  split.
  - intros x. repeat split; try reflexivity. apply items_equiv_refl.
  - intros x y (H1 & H2 & H3 & H4 & H5).
    repeat split; try (now symmetry). now apply items_equiv_sym.
  - intros x y z (H1 & H2 & H3 & H4 & H5) (K1 & K2 & K3 & K4 & K5).
    repeat split; try (etransitivity; eassumption).
    eapply items_equiv_trans; eassumption.
Qed.

Lemma num_equiv_fin x a : num_equiv x (Fin a) -> x === Fin a.
Proof. destruct x; simpl; auto. Qed.

Lemma labels_equiv l1 l2 :
  Forall2 item_equiv l1 l2 -> map tierLabel l1 = map tierLabel l2.
Proof.
  induction 1 as [| x y l1 l2 (Hl & _) _ IH]; [reflexivity|].
  simpl. now rewrite Hl, IH.
Qed.

Lemma Qltb_equiv a a' b b' :
  (a == a')%Q -> (b == b')%Q -> Num.Qltb a b = Num.Qltb a' b'.
Proof. intros Ha Hb. unfold Num.Qltb. now rewrite Ha, Hb. Qed.

Lemma Qleb_equiv a a' b b' :
  (a == a')%Q -> (b == b')%Q -> Num.Qleb a b = Num.Qleb a' b'.
Proof. intros Ha Hb. unfold Num.Qleb. now rewrite Ha, Hb. Qed.

Ltac num_cases :=
  repeat match goal with
    | x : num |- _ => destruct x
    end;
  simpl in *; try contradiction; try exact I.

Lemma ltb_equiv x x' y y' :
  num_equiv x x' -> num_equiv y y' -> (x <? y) = (x' <? y').
Proof. intros; num_cases; auto using Qltb_equiv. Qed.

Lemma leb_equiv x x' y y' :
  num_equiv x x' -> num_equiv y y' -> (x <=? y) = (x' <=? y').
Proof. intros; num_cases; auto using Qleb_equiv. Qed.

Lemma add_equiv x x' y y' :
  num_equiv x x' -> num_equiv y y' -> num_equiv (x + y) (x' + y').
Proof. intros Hx Hy; num_cases. now rewrite Hx, Hy. Qed.

Lemma sub_equiv x x' y y' :
  num_equiv x x' -> num_equiv y y' -> num_equiv (x - y) (x' - y').
Proof. intros Hx Hy; num_cases. now rewrite Hx, Hy. Qed.

Lemma inf_signed_equiv pos q q' :
  (q == q')%Q -> num_equiv (Num.inf_signed pos q) (Num.inf_signed pos q').
Proof.
  intros Hq. unfold Num.inf_signed. rewrite Hq.
  destruct (q' ?= 0)%Q, pos; exact I.
Qed.

Lemma mul_equiv x x' y y' :
  num_equiv x x' -> num_equiv y y' -> num_equiv (x * y) (x' * y').
Proof.
  intros Hx Hy; num_cases; auto using inf_signed_equiv. now rewrite Hx, Hy.
Qed.

Lemma div_equiv x x' y y' :
  num_equiv x x' -> num_equiv y y' -> num_equiv (x / y) (x' / y').
Proof.
  intros Hx Hy; num_cases; try reflexivity.
  - rewrite (Qltb_equiv q0 q 0 0 Hy (Qeq_refl 0)). destruct (Num.Qltb q 0); exact I.
  - rewrite (Qltb_equiv q0 q 0 0 Hy (Qeq_refl 0)). destruct (Num.Qltb q 0); exact I.
  - rewrite Hx, Hy.
    destruct (q ?= 0)%Q; simpl; try (now rewrite Hx, Hy).
    apply num_equiv_refl.
Qed.

Lemma max_equiv x x' y y' :
  num_equiv x x' -> num_equiv y y' -> num_equiv (Num.max x y) (Num.max x' y').
Proof. intros Hx Hy; num_cases; auto. now rewrite Hx, Hy. Qed.

Lemma min_equiv x x' y y' :
  num_equiv x x' -> num_equiv y y' -> num_equiv (Num.min x y) (Num.min x' y').
Proof. intros Hx Hy; num_cases; auto. now rewrite Hx, Hy. Qed.

(** ** The tier loop, for an arbitrary rate list *)

Section TierLoop.

Variable rates : list num.

Lemma tierLoop_cons tier rest i s :
  tierLoop rates (tier :: rest) i s =
    let ratePercent := rateAt rates i in
    let amount :=
      Num.min (Num.max (Fin 0) (Loop.remainingAmount s))
              (limit tier - Loop.previousLimit s) in
    if amount >? Fin 0 then
      tierLoop rates rest (S i)
        (Loop.mk (Loop.remainingAmount s - amount)
                 (Loop.originalTotalFee s + amount * (ratePercent / Fin 100))
                 (Loop.breakdown s ++
                    [mkItem (label tier)
                            (Num.toFixed2 ratePercent ++ "%")%string
                            amount (amount * (ratePercent / Fin 100))])
                 (limit tier))
    else if (Loop.remainingAmount s <=? Fin 0) && (0 <? i)%nat then s
    else
      tierLoop rates rest (S i)
        (Loop.mk (Loop.remainingAmount s) (Loop.originalTotalFee s)
                 (Loop.breakdown s) (limit tier)).
Proof. reflexivity. Qed.

(** From a finite state the loop ends in a finite state: the remainder
    shrinks but stays non-negative, the fee grows, what is taken from the
    remainder is what the breakdown gains, and an unbounded tier leaves
    nothing behind. *)
Lemma tierLoop_finite tiers prev :
  ascending prev tiers ->
  forall i s r t a,
    rates_cover rates i (List.length tiers) ->
    Loop.remainingAmount s = Fin r -> (0 <= r)%Q ->
    Loop.originalTotalFee s = Fin t ->
    Loop.previousLimit s = prev ->
    sumAmounts (Loop.breakdown s) = Fin a ->
    exists r' t' a',
      Loop.remainingAmount (tierLoop rates tiers i s) = Fin r' /\
      (0 <= r')%Q /\ (r' <= r)%Q /\
      Loop.originalTotalFee (tierLoop rates tiers i s) = Fin t' /\
      (t <= t')%Q /\
      sumAmounts (Loop.breakdown (tierLoop rates tiers i s)) = Fin a' /\
      (a' + r' == a + r)%Q /\
      (Exists unbounded tiers -> (r' == 0)%Q).
Proof.
  induction 1 as [prev | p lim lbl rest Hlim Hasc IH];
    intros i s r t a Hrates Hr Hr0 Ht Hp Ha.
  - exists r, t, a. cbn [tierLoop].
    repeat split; try assumption; try lra. intros HE; inversion HE.
  - rewrite tierLoop_cons; cbn zeta. cbn [limit label].
    rewrite Hr, Hp, (amount_eq r p lim Hlim).
    destruct (Hrates i) as (c & Hc & Hc0); [simpl; lia|].
    rewrite Hc, rate_div.
    destruct (amountOf_bounds r p lim Hr0 Hlim) as (B0 & B1 & B2 & B3).
    assert (Hrates' : rates_cover rates (S i) (List.length rest)).
    { intros j Hj. apply Hrates. simpl. lia. }
    change (Fin (amountOf r p lim) >? Fin 0)
      with (Num.Qltb 0 (amountOf r p lim)).
    change (Fin r <=? Fin 0) with (Num.Qleb r 0).
    destruct (Num.Qltb 0 (amountOf r p lim)) eqn:E.
    + match goal with
      | |- context [tierLoop rates rest (S i) ?s'] =>
          destruct (IH (S i) s' (r - amountOf r p lim)%Q
                       (t + amountOf r p lim * (c / 100))%Q
                       (a + amountOf r p lim)%Q Hrates')
            as (r' & t' & a' & Hr' & Hr'0 & Hr'1 & Ht' & Hle & Ha' & Hsum & Hend)
      end.
      * reflexivity.
      * lra.
      * cbn [Loop.originalTotalFee]. now rewrite Ht.
      * reflexivity.
      * cbn [Loop.breakdown]. now rewrite sumAmounts_snoc, Ha.
      * exists r', t', a'. pose proof (fee_nonneg _ _ B0 Hc0).
        repeat split; try assumption; try lra.
        intros HE. inversion HE as [? ? Hu | ? ? Hu]; subst.
        -- specialize (B3 Hu). lra.
        -- auto.
    + apply Qltb_false in E.
      assert (Hz : (r == 0)%Q)
        by (destruct (Qlt_le_dec 0 r) as [Hpos|]; [specialize (B2 Hpos)|]; lra).
      destruct (Num.Qleb r 0 && (0 <? i)%nat).
      * exists r, t, a. repeat split; try assumption; try lra.
      * match goal with
        | |- context [tierLoop rates rest (S i) ?s'] =>
            destruct (IH (S i) s' r t a Hrates')
              as (r' & t' & a' & Hr' & Hr'0 & Hr'1 & Ht' & Hle & Ha' & Hsum & Hend);
            [reflexivity | exact Hr0 | exact Ht | reflexivity | exact Ha |]
        end.
        exists r', t', a'. repeat split; try assumption; try lra.
Qed.

(** Two runs over the same tiers, the second on the larger remainder and
    the larger running fee, end with the fees in the same order. *)
Lemma tierLoop_monotone tiers prev :
  ascending prev tiers ->
  forall i sa sb ra rb ta tb ab,
    rates_cover rates i (List.length tiers) ->
    Loop.remainingAmount sa = Fin ra -> Loop.remainingAmount sb = Fin rb ->
    (0 <= ra)%Q -> (ra <= rb)%Q ->
    Loop.originalTotalFee sa = Fin ta -> Loop.originalTotalFee sb = Fin tb ->
    (ta <= tb)%Q ->
    Loop.previousLimit sa = prev -> Loop.previousLimit sb = prev ->
    sumAmounts (Loop.breakdown sb) = Fin ab ->
    exists ta' tb',
      Loop.originalTotalFee (tierLoop rates tiers i sa) = Fin ta' /\
      Loop.originalTotalFee (tierLoop rates tiers i sb) = Fin tb' /\
      (ta' <= tb')%Q.
Proof.
  induction 1 as [prev | p lim lbl rest Hlim Hasc IH];
    intros i sa sb ra rb ta tb ab Hrates Hra Hrb Hra0 Hab Hta Htb Ht Hpa Hpb Hsb.
  - exists ta, tb. cbn [tierLoop]. auto.
  - rewrite !tierLoop_cons; cbn zeta. cbn [limit label].
    rewrite Hra, Hrb, Hpa, Hpb, !(amount_eq _ p lim Hlim).
    destruct (Hrates i) as (c & Hc & Hc0); [simpl; lia|].
    rewrite Hc, rate_div.
    assert (Hrb0 : (0 <= rb)%Q) by lra.
    destruct (amountOf_bounds ra p lim Hra0 Hlim) as (A0 & A1 & A2 & _).
    destruct (amountOf_bounds rb p lim Hrb0 Hlim) as (B0 & B1 & B2 & _).
    destruct (amountOf_mono ra rb p lim Hra0 Hab Hlim) as (M1 & M2).
    pose proof (fee_mono _ _ c M1 Hc0) as Hfee.
    pose proof (fee_nonneg _ _ B0 Hc0) as Hfb.
    assert (Hrates' : rates_cover rates (S i) (List.length rest)).
    { intros j Hj. apply Hrates. simpl. lia. }
    change (Fin (amountOf ra p lim) >? Fin 0)
      with (Num.Qltb 0 (amountOf ra p lim)).
    change (Fin (amountOf rb p lim) >? Fin 0)
      with (Num.Qltb 0 (amountOf rb p lim)).
    change (Fin ra <=? Fin 0) with (Num.Qleb ra 0).
    change (Fin rb <=? Fin 0) with (Num.Qleb rb 0).
    destruct (Num.Qltb 0 (amountOf ra p lim)) eqn:Ea;
      destruct (Num.Qltb 0 (amountOf rb p lim)) eqn:Eb.
    + apply (IH (S i) _ _ (ra - amountOf ra p lim)%Q (rb - amountOf rb p lim)%Q
                (ta + amountOf ra p lim * (c / 100))%Q
                (tb + amountOf rb p lim * (c / 100))%Q
                (ab + amountOf rb p lim)%Q Hrates');
        cbn [Loop.originalTotalFee Loop.breakdown];
        rewrite ?Hta, ?Htb, ?sumAmounts_snoc, ?Hsb; try reflexivity; lra.
    + apply Qltb_true in Ea. apply Qltb_false in Eb. lra.
    + apply Qltb_false in Ea.
      assert (Hz : (ra == 0)%Q)
        by (destruct (Qlt_le_dec 0 ra) as [Hpos|]; [specialize (A2 Hpos)|]; lra).
      destruct (Num.Qleb ra 0 && (0 <? i)%nat).
      * match goal with
        | |- context [tierLoop rates rest (S i) ?s'] =>
            destruct (tierLoop_finite rest lim Hasc (S i) s'
                        (rb - amountOf rb p lim)%Q
                        (tb + amountOf rb p lim * (c / 100))%Q
                        (ab + amountOf rb p lim)%Q Hrates')
              as (r' & t' & a' & _ & _ & _ & Ht' & Hle & _)
        end; try reflexivity.
        -- lra.
        -- cbn [Loop.originalTotalFee]. now rewrite Htb.
        -- cbn [Loop.breakdown]. now rewrite sumAmounts_snoc, Hsb.
        -- exists ta, t'. repeat split; try assumption. lra.
      * apply (IH (S i) _ _ ra (rb - amountOf rb p lim)%Q ta
                  (tb + amountOf rb p lim * (c / 100))%Q
                  (ab + amountOf rb p lim)%Q Hrates');
          cbn [Loop.originalTotalFee Loop.breakdown];
          rewrite ?Hta, ?Htb, ?sumAmounts_snoc, ?Hsb; try reflexivity; lra.
    + apply Qltb_false in Ea. apply Qltb_false in Eb.
      assert (Hza : (ra == 0)%Q)
        by (destruct (Qlt_le_dec 0 ra) as [Hpos|]; [specialize (A2 Hpos)|]; lra).
      assert (Hzb : (rb == 0)%Q)
        by (destruct (Qlt_le_dec 0 rb) as [Hpos|]; [specialize (B2 Hpos)|]; lra).
      replace (Num.Qleb ra 0) with true by (symmetry; apply Qleb_true; lra).
      replace (Num.Qleb rb 0) with true by (symmetry; apply Qleb_true; lra).
      destruct (true && (0 <? i)%nat).
      * exists ta, tb. auto.
      * apply (IH (S i) _ _ ra rb ta tb ab Hrates'); try reflexivity; assumption.
Qed.

(** The loop treats rationally equal states alike. *)
Lemma tierLoop_equiv tiers :
  forall i s1 s2,
    state_equiv s1 s2 ->
    state_equiv (tierLoop rates tiers i s1) (tierLoop rates tiers i s2).
Proof.
  induction tiers as [| tier rest IH]; intros i s1 s2 Hs; [exact Hs|].
  destruct Hs as (Hr & Ht & Hb & Hp).
  rewrite !tierLoop_cons; cbn zeta.
  set (a1 := Num.min (Num.max (Fin 0) (Loop.remainingAmount s1))
                     (limit tier - Loop.previousLimit s1)).
  set (a2 := Num.min (Num.max (Fin 0) (Loop.remainingAmount s2))
                     (limit tier - Loop.previousLimit s2)).
  assert (Hamt : num_equiv a1 a2).
  { apply min_equiv; [apply max_equiv | apply sub_equiv];
      auto using num_equiv_refl. }
  assert (Hfee : num_equiv (a1 * (rateAt rates i / Fin 100))
                           (a2 * (rateAt rates i / Fin 100))).
  { apply mul_equiv; auto using num_equiv_refl. }
  unfold Num.gtb.
  rewrite (ltb_equiv (Fin 0) (Fin 0) a1 a2 (num_equiv_refl _) Hamt).
  rewrite (leb_equiv _ _ (Fin 0) (Fin 0) Hr (num_equiv_refl _)).
  destruct (Fin 0 <? a2).
  - apply IH. repeat split; cbn [Loop.remainingAmount Loop.originalTotalFee
                                  Loop.breakdown Loop.previousLimit].
    + now apply sub_equiv.
    + now apply add_equiv.
    + apply Forall2_app; [assumption|].
      constructor; [|constructor]. repeat split; assumption.
    + apply num_equiv_refl.
  - destruct (_ && _).
    + repeat split; assumption.
    + apply IH. repeat split; try assumption. apply num_equiv_refl.
Qed.

End TierLoop.

Lemma initialState_equiv x y :
  num_equiv x y -> state_equiv (initialState x) (initialState y).
Proof.
  intros H. repeat split; simpl; try reflexivity; [assumption | constructor].
Qed.

(** ** The static tables *)

Lemma TIERS_ascending : ascending (Fin 0) TIERS.
Proof. unfold TIERS. repeat (apply asc_cons; [easy|]). apply asc_nil. Qed.

Lemma RATES_cover serviceType :
  rates_cover (RATES serviceType) 0 (List.length TIERS).
Proof.
  intros j Hj. simpl in Hj.
  assert (Hcases : (j = 0 \/ j = 1 \/ j = 2 \/ j = 3 \/ j = 4 \/ j = 5 \/ j = 6)%nat)
    by lia.
  destruct serviceType;
    repeat (destruct Hcases as [-> | Hcases]); try subst j;
    (eexists; split; [reflexivity | discriminate]).
Qed.

(** ** The calculation, unfolded *)

Lemma calculationResult_unfold serviceType raw unit d :
  calculationResult serviceType raw unit d =
    if Num.isNaN raw || (raw <? Fin 0) then None
    else
      let s := finalState serviceType (convert raw unit) in
      Some (mkResult (Loop.originalTotalFee s)
                     (Loop.originalTotalFee s * (effectiveDiscount d / Fin 100))
                     (convert raw unit) (Loop.breakdown s)
                     (effectiveDiscount d)).
Proof.
  unfold calculationResult, finalState, convert, effectiveDiscount.
  reflexivity.
Qed.

Lemma Some_inj {A} (x y : A) : Some x = Some y -> x = y.
Proof. intros H. injection H as H. exact H. Qed.

(** The fields of a result. *)
Lemma calculationResult_fields serviceType raw unit d r :
  calculationResult serviceType raw unit d = Some r ->
  Num.isNaN raw || (raw <? Fin 0) = false /\
  bidAmount r = convert raw unit /\
  breakdown r = Loop.breakdown (finalState serviceType (convert raw unit)) /\
  originalTotalFee r
    = Loop.originalTotalFee (finalState serviceType (convert raw unit)) /\
  discountRate r = effectiveDiscount d /\
  discountedFee r = originalTotalFee r * (discountRate r / Fin 100).
Proof.
  rewrite calculationResult_unfold.
  destruct (Num.isNaN raw || (raw <? Fin 0)); [discriminate|].
  cbv zeta. intros H. apply Some_inj in H. subst r.
  cbn [bidAmount breakdown originalTotalFee discountRate discountedFee].
  split; [reflexivity|]. split; [reflexivity|]. split; [reflexivity|].
  split; [reflexivity|]. split; reflexivity.
Qed.

Lemma convert_fin q unit : convert (Fin q) unit = Fin (baseAmount q unit).
Proof. now destruct unit. Qed.

Lemma baseAmount_nonneg q unit : (0 <= q)%Q -> (0 <= baseAmount q unit)%Q.
Proof. destruct unit; simpl; lra. Qed.

Lemma guard_fin q : (0 <= q)%Q -> Num.isNaN (Fin q) || (Fin q <? Fin 0) = false.
Proof. intros. now apply Qltb_false. Qed.

(** The final state on a finite, non-negative base amount. *)
Lemma finalState_finite serviceType b :
  (0 <= b)%Q ->
  exists t a,
    Loop.originalTotalFee (finalState serviceType (Fin b)) = Fin t /\
    (0 <= t)%Q /\
    sumAmounts (Loop.breakdown (finalState serviceType (Fin b))) = Fin a /\
    (a == b)%Q.
Proof.
  intros Hb.
  destruct (tierLoop_finite (RATES serviceType) TIERS (Fin 0) TIERS_ascending 0
              (initialState (Fin b)) b 0 0
              (RATES_cover serviceType) eq_refl Hb eq_refl eq_refl eq_refl)
    as (r' & t & a & _ & _ & _ & Ht & Ht0 & Ha & Hsum & Hend).
  assert (Hr' : (r' == 0)%Q).
  { apply Hend. unfold TIERS. do 6 apply Exists_cons_tl.
    apply Exists_cons_hd. reflexivity. }
  exists t, a. unfold finalState.
  split; [exact Ht|]. split; [exact Ht0|]. split; [exact Ha|]. lra.
Qed.

(** What a finite, non-negative input produces. *)
Lemma calculationResult_finite serviceType q unit d :
  (0 <= q)%Q ->
  exists t a,
    calculationResult serviceType (Fin q) unit d =
      Some (mkResult (Fin t) (Fin t * (effectiveDiscount d / Fin 100))
                     (Fin (baseAmount q unit))
                     (Loop.breakdown
                        (finalState serviceType (Fin (baseAmount q unit))))
                     (effectiveDiscount d)) /\
    (0 <= t)%Q /\
    Loop.originalTotalFee (finalState serviceType (Fin (baseAmount q unit)))
      = Fin t /\
    sumAmounts (Loop.breakdown
                  (finalState serviceType (Fin (baseAmount q unit)))) = Fin a /\
    (a == baseAmount q unit)%Q.
Proof.
  intros Hq.
  destruct (finalState_finite serviceType (baseAmount q unit)
              (baseAmount_nonneg q unit Hq)) as (t & a & Ht & Ht0 & Ha & Hsum).
  exists t, a. rewrite calculationResult_unfold, (guard_fin q Hq), convert_fin.
  cbn zeta. rewrite Ht.
  split; [reflexivity|]. split; [exact Ht0|]. split; [reflexivity|].
  split; [exact Ha | exact Hsum].
Qed.

Lemma finalState_equiv serviceType x y :
  num_equiv x y ->
  state_equiv (finalState serviceType x) (finalState serviceType y).
Proof.
  intros H. unfold finalState. apply tierLoop_equiv. now apply initialState_equiv.
Qed.

Lemma finalState_zero serviceType :
  Loop.breakdown (finalState serviceType (Fin 0)) = [] /\
  Loop.originalTotalFee (finalState serviceType (Fin 0)) = Fin 0.
Proof. destruct serviceType; vm_compute; auto. Qed.

Lemma finalState_at_limit serviceType t l :
  In t TIERS -> limit t = Fin l ->
  (0 < l)%Q /\
  map tierLabel (Loop.breakdown (finalState serviceType (Fin l))) =
    map label (tiersUpTo (Fin l)) /\
  forall t', In t' TIERS -> (Fin l <? limit t') = true ->
             ~ In (label t') (map label (tiersUpTo (Fin l))).
Proof.
  intros Hin Hl. unfold TIERS in Hin. cbn [In] in Hin.
  repeat (destruct Hin as [<- | Hin]); try contradiction;
    cbn [limit] in Hl; try discriminate; injection Hl as <-;
    (split; [reflexivity|]);
    (split; [destruct serviceType; vm_compute; reflexivity|]);
    intros t' Hin' Hlt; unfold TIERS in Hin'; cbn [In] in Hin';
    repeat (destruct Hin' as [<- | Hin']); try contradiction;
    try (vm_compute in Hlt; discriminate);
    vm_compute; intuition discriminate.
Qed.

Lemma finalState_monotone serviceType (a b : Q) :
  (0 <= a)%Q -> (a <= b)%Q ->
  exists fa fb,
    Loop.originalTotalFee (finalState serviceType (Fin a)) = Fin fa /\
    Loop.originalTotalFee (finalState serviceType (Fin b)) = Fin fb /\
    (fa <= fb)%Q.
Proof.
  intros Ha Hab. unfold finalState.
  exact (tierLoop_monotone (RATES serviceType) TIERS (Fin 0) TIERS_ascending 0
              (initialState (Fin a)) (initialState (Fin b)) a b 0 0 0
              (RATES_cover serviceType) eq_refl eq_refl Ha Hab eq_refl eq_refl
              (Qle_refl 0) eq_refl eq_refl eq_refl).
Qed.

(** The undiscounted fee of a result is finite and non-negative, or
    [+Infinity]. *)
Lemma originalTotalFee_cases serviceType raw unit d r :
  calculationResult serviceType raw unit d = Some r ->
  (exists t, originalTotalFee r = Fin t /\ (0 <= t)%Q) \/
  originalTotalFee r = PInf.
Proof.
  destruct raw as [| | |q].
  - discriminate.
  - rewrite calculationResult_unfold. cbn [Num.isNaN orb Num.ltb].
    intros H; injection H as <-. right. cbn [originalTotalFee].
    destruct serviceType, unit; vm_compute; reflexivity.
  - discriminate.
  - destruct (Qlt_le_dec q 0) as [Hneg | Hq].
    + rewrite calculationResult_unfold. cbn [Num.isNaN orb Num.ltb].
      apply Qltb_true in Hneg. rewrite Hneg. discriminate.
    + destruct (calculationResult_finite serviceType q unit d Hq)
        as (t & a & Hr & Ht0 & _).
      rewrite Hr. intros H; injection H as <-. left. exists t. auto.
Qed.

Lemma discount_100 t : Fin t * (Fin 100 / Fin 100) === Fin t.
Proof. simpl. field. Qed.

(** * Part III, continued: facts about binary64 arithmetic and the binary64 program *)

(** ** Signs *)

Lemma SFcompare_refl x :
  x <> S754_nan -> SFcompare x x = Some Eq.
Proof.
  destruct x as [s | s | | s m e]; intros H; try (now destruct s);
    [contradiction|].
  cbn [SFcompare]. rewrite Z.compare_refl, Pos.compare_cont_refl.
  now destruct s.
Qed.

Lemma isNaN_spec (x : float) :
  Binary64.isNaN x = match Prim2SF x with S754_nan => true | _ => false end.
Proof.
  unfold Binary64.isNaN, is_nan. rewrite eqb_spec. unfold SFeqb.
  destruct (Prim2SF x) as [s | s | | s m e] eqn:E; try reflexivity;
    rewrite SFcompare_refl; try reflexivity; discriminate.
Qed.

Lemma guard_spec (x : float) :
  Binary64.isNaN x || (x <? 0)%float = negb (not_negative (Prim2SF x)).
Proof.
  rewrite isNaN_spec, ltb_spec.
  change (Prim2SF 0) with (S754_zero false).
  destruct (Prim2SF x) as [s | s | | s m e]; try reflexivity; now destruct s.
Qed.

Lemma positive_spec (x : float) :
  (0 <? x)%float = positive_datum (Prim2SF x).
Proof.
  rewrite ltb_spec. change (Prim2SF 0) with (S754_zero false).
  destruct (Prim2SF x) as [s | s | | s m e]; try reflexivity; now destruct s.
Qed.

Lemma iter_pos_invariant {A} (P : A -> Prop) (f : A -> A) :
  (forall x, P x -> P (f x)) ->
  forall p x, P x -> P (iter_pos f p x).
Proof.
  intros Hf. induction p as [p IH | p IH |]; intros x Hx; cbn [iter_pos]; auto.
Qed.

Lemma shr_1_nonneg mrs : (0 <= shr_m mrs)%Z -> (0 <= shr_m (shr_1 mrs))%Z.
Proof.
  destruct mrs as [m r s]. cbn [shr_m]. intros H.
  destruct m as [| [p | p |] | p]; cbn; lia.
Qed.

Lemma shr_fexp_nonneg m e l :
  (0 <= m)%Z -> (0 <= shr_m (fst (shr_fexp prec emax m e l)))%Z.
Proof.
  intros H. unfold shr_fexp, shr.
  assert (H0 : (0 <= shr_m (shr_record_of_loc m l))%Z)
    by (destruct l as [| []]; exact H).
  destruct (fexp prec emax (Zdigits2 m + e) - e)%Z; cbn [fst]; try exact H0.
  apply (iter_pos_invariant (fun mrs => (0 <= shr_m mrs)%Z));
    [exact shr_1_nonneg | exact H0].
Qed.

Lemma round_nearest_even_nonneg m l :
  (0 <= m)%Z -> (0 <= round_nearest_even m l)%Z.
Proof.
  intros H. destruct l as [| []]; cbn [round_nearest_even]; try lia.
  destruct (Z.even m); lia.
Qed.

(** Rounding a non-negative mantissa gives a datum of the given sign, never
    [NaN]. *)
Lemma binary_round_aux_signed s m e l :
  (0 <= m)%Z -> signed s (binary_round_aux prec emax s m e l).
Proof.
  intros H. unfold binary_round_aux.
  pose proof (shr_fexp_nonneg m e l H) as H1.
  destruct (shr_fexp prec emax m e l) as [mrs' e'] eqn:E1. cbn [fst] in H1.
  pose proof (round_nearest_even_nonneg _ (loc_of_shr_record mrs') H1) as H2.
  pose proof (shr_fexp_nonneg _ e' loc_Exact H2) as H3.
  destruct (shr_fexp prec emax _ e' loc_Exact) as [mrs'' e''] eqn:E2.
  cbn [fst] in H3.
  destruct (shr_m mrs'') as [| p | p]; [reflexivity | | lia].
  destruct (e'' <=? emax - prec)%Z; reflexivity.
Qed.

Lemma signed_not_negative x : signed false x -> not_negative x = true.
Proof. destruct x as [s | s | | s m e]; cbn; intros H; now subst. Qed.

(** What is not negative, times a positive finite datum, is not negative. *)
Lemma SF64mul_not_negative x m e :
  not_negative x = true ->
  not_negative (SF64mul x (S754_finite false m e)) = true.
Proof.
  destruct x as [s | s | | s mx ex]; try discriminate.
  - intros _. reflexivity.
  - destruct s; try discriminate. intros _. reflexivity.
  - destruct s; try discriminate. intros _.
    apply signed_not_negative. unfold SF64mul, SFmul.
    apply (binary_round_aux_signed (xorb false false)). easy.
Qed.

Lemma binary_normalize_positive m1 m2 e :
  not_negative (binary_normalize prec emax (Z.pos m1 + Z.pos m2) e false) = true.
Proof.
  cbn [Z.add binary_normalize]. unfold binary_round.
  destruct (shl_align _ _ _) as [mz ez].
  apply signed_not_negative. apply binary_round_aux_signed. easy.
Qed.

(** The sum of two data that are not negative is not negative. *)
Lemma SF64add_not_negative x y :
  not_negative x = true -> not_negative y = true ->
  not_negative (SF64add x y) = true.
Proof.
  destruct x as [sx | sx | | sx mx ex]; try discriminate;
    destruct y as [sy | sy | | sy my ey]; try discriminate;
    destruct sx, sy; try discriminate; intros _ _; try reflexivity.
  unfold SF64add, SFadd. cbn [cond_Zopp]. apply binary_normalize_positive.
Qed.

Lemma positive_not_negative x : positive_datum x = true -> not_negative x = true.
Proof. destruct x as [s | s | | s m e]; try discriminate; now destruct s. Qed.

(** ** Multiplication by one *)



(** ** The binary64 loop *)

Lemma b64_tierLoop_cons rates tier rest i s :
  Binary64.tierLoop rates (tier :: rest) i s =
  let ratePercent := Binary64.rateAt rates i in
  let rateDecimal := (ratePercent / 100)%float in
  let tierSpan :=
    (Binary64.limit tier - Binary64.Loop.previousLimit s)%float in
  let amountInTier :=
    Binary64.min (Binary64.max 0 (Binary64.Loop.remainingAmount s)) tierSpan in
  if (0 <? amountInTier)%float then
    let feeForTier := (amountInTier * rateDecimal)%float in
    Binary64.tierLoop rates rest (S i)
      (Binary64.Loop.mk
         (Binary64.Loop.remainingAmount s - amountInTier)%float
         (Binary64.Loop.originalTotalFee s + feeForTier)%float
         (Binary64.Loop.breakdown s ++
            [Binary64.mkItem (Binary64.label tier)
               (Binary64.toFixed2 ratePercent ++ "%")%string
               amountInTier feeForTier])
         (Binary64.limit tier))
  else if (Binary64.Loop.remainingAmount s <=? 0)%float && (0 <? i)%nat then s
  else
    Binary64.tierLoop rates rest (S i)
      (Binary64.Loop.mk (Binary64.Loop.remainingAmount s)
         (Binary64.Loop.originalTotalFee s)
         (Binary64.Loop.breakdown s) (Binary64.limit tier)).
Proof. reflexivity. Qed.

Lemma decimals_positive_next rates i n :
  decimals_positive rates i (S n) -> decimals_positive rates (S i) n.
Proof. intros H j Hj. apply H. lia. Qed.

Lemma line_fee_not_negative rates i n amt :
  decimals_positive rates i (S n) ->
  (0 <? amt)%float = true ->
  not_negative (Prim2SF (amt * (Binary64.rateAt rates i / 100))%float) = true.
Proof.
  intros Hr Hpos. destruct (Hr i ltac:(lia)) as (m & e & Hd).
  rewrite mul_spec, Hd. apply SF64mul_not_negative.
  apply positive_not_negative. rewrite <- positive_spec. exact Hpos.
Qed.

(** The loop keeps the running fee a number that is not negative, adds
    only lines with a positive amount and such a fee, and adds at most one
    line for each tier. *)
Lemma b64_tierLoop_signs rates tiers :
  forall i s,
    decimals_positive rates i (List.length tiers) ->
    fee_ok (Binary64.Loop.originalTotalFee s) ->
    Forall line_ok (Binary64.Loop.breakdown s) ->
    let s' := Binary64.tierLoop rates tiers i s in
    fee_ok (Binary64.Loop.originalTotalFee s') /\
    Forall line_ok (Binary64.Loop.breakdown s') /\
    (List.length (Binary64.Loop.breakdown s')
     <= List.length (Binary64.Loop.breakdown s) + List.length tiers)%nat.
Proof.
  induction tiers as [| tier rest IH]; intros i s Hr Hfee Hlines.
  - cbn. repeat split; [exact Hfee | exact Hlines | lia].
  - cbv zeta. rewrite b64_tierLoop_cons. cbv zeta.
    set (amt := Binary64.min _ _).
    cbn [List.length] in *.
    destruct (0 <? amt)%float eqn:Hpos.
    + pose proof (line_fee_not_negative rates i _ amt Hr Hpos) as Hline.
      match goal with
      | |- context [Binary64.tierLoop rates rest (S i) ?s1] =>
          destruct (IH (S i) s1 (decimals_positive_next _ _ _ Hr))
            as (H1 & H2 & H3)
      end.
      * cbn [Binary64.Loop.originalTotalFee]. unfold fee_ok.
        rewrite add_spec. apply SF64add_not_negative; [exact Hfee | exact Hline].
      * cbn [Binary64.Loop.breakdown]. apply Forall_app. split; [exact Hlines|].
        constructor; [|constructor]. split; [exact Hpos | exact Hline].
      * cbn [Binary64.Loop.breakdown] in H3. rewrite length_app in H3.
        cbn [List.length] in H3.
        split; [exact H1|]. split; [exact H2 | lia].
    + destruct ((Binary64.Loop.remainingAmount s <=? 0)%float && (0 <? i)%nat).
      * split; [exact Hfee|]. split; [exact Hlines | lia].
      * match goal with
        | |- context [Binary64.tierLoop rates rest (S i) ?s1] =>
            destruct (IH (S i) s1 (decimals_positive_next _ _ _ Hr) Hfee Hlines)
              as (H1 & H2 & H3)
        end.
        cbn [Binary64.Loop.breakdown] in H3.
        split; [exact H1|]. split; [exact H2 | lia].
Qed.

(** Every rate of [RATES], divided by 100, is a positive finite double. *)
Lemma b64_RATES_positive serviceType :
  decimals_positive (Binary64.RATES serviceType) 0 7.
Proof.
  intros j Hj.
  destruct serviceType;
    do 7 (destruct j as [| j];
          [vm_compute; eexists; eexists; reflexivity|]);
    lia.
Qed.

(** What [calculationResult] returns, when it returns a result. *)
Lemma b64_calculationResult_some serviceType rawValue unit parsedDiscount r :
  Binary64.calculationResult serviceType rawValue unit parsedDiscount = Some r ->
  Binary64.isNaN rawValue || (rawValue <? 0)%float = false /\
  r = let bidAmount :=
        match unit with
        | wanyuan => (rawValue * 10000)%float
        | yuan => rawValue
        end in
      let s := Binary64.tierLoop (Binary64.RATES serviceType) Binary64.TIERS 0
                 (Binary64.initialState bidAmount) in
      let discountRate :=
        if Binary64.isNaN parsedDiscount || (parsedDiscount <? 0)%float
        then 100%float else parsedDiscount in
      Binary64.mkResult (Binary64.Loop.originalTotalFee s)
        (Binary64.Loop.originalTotalFee s * (discountRate / 100))%float
        bidAmount (Binary64.Loop.breakdown s) discountRate.
Proof.
  unfold Binary64.calculationResult.
  destruct (Binary64.isNaN rawValue || (rawValue <? 0)%float);
    [discriminate|].
  intros H. split; [reflexivity|]. exact (eq_sym (Some_inj _ _ H)).
Qed.

(** The fields of a result. *)
Lemma b64_calculationResult_fields serviceType rawValue unit parsedDiscount r :
  Binary64.calculationResult serviceType rawValue unit parsedDiscount = Some r ->
  let bid := match unit with
             | wanyuan => (rawValue * 10000)%float
             | yuan => rawValue
             end in
  let s := Binary64.tierLoop (Binary64.RATES serviceType) Binary64.TIERS 0
             (Binary64.initialState bid) in
  Binary64.isNaN rawValue || (rawValue <? 0)%float = false /\
  Binary64.bidAmount r = bid /\
  Binary64.breakdown r = Binary64.Loop.breakdown s /\
  Binary64.originalTotalFee r = Binary64.Loop.originalTotalFee s /\
  Binary64.discountRate r
    = (if Binary64.isNaN parsedDiscount || (parsedDiscount <? 0)%float
       then 100%float else parsedDiscount) /\
  Binary64.discountedFee r
    = (Binary64.originalTotalFee r * (Binary64.discountRate r / 100))%float.
Proof.
  intros H.
  destruct (b64_calculationResult_some _ _ _ _ _ H) as [Hguard Heq].
  cbv zeta in Heq.
  subst r.
  cbv zeta.
  cbn [Binary64.bidAmount Binary64.breakdown Binary64.originalTotalFee Binary64.discountRate Binary64.discountedFee].
  split; [exact Hguard|].
  split; [reflexivity|].
  split; [reflexivity|].
  split; [reflexivity|].
  split; [reflexivity|].
  reflexivity.
Qed.

Lemma b64_calculationResult_passes serviceType rawValue unit parsedDiscount :
  Binary64.isNaN rawValue || (rawValue <? 0)%float = false ->
  exists r,
    Binary64.calculationResult serviceType rawValue unit parsedDiscount = Some r.
Proof.
  intros H. unfold Binary64.calculationResult. rewrite H. eexists. reflexivity.
Qed.

(** The fee of a result is a number that is not negative. *)
Lemma b64_result_signs serviceType rawValue unit parsedDiscount r :
  Binary64.calculationResult serviceType rawValue unit parsedDiscount = Some r ->
  fee_ok (Binary64.originalTotalFee r) /\
  Forall line_ok (Binary64.breakdown r) /\
  (List.length (Binary64.breakdown r) <= 7)%nat.
Proof.
  intros H. apply b64_calculationResult_some in H. destruct H as [_ ->].
  cbv zeta. cbn [Binary64.originalTotalFee Binary64.breakdown].
  apply (b64_tierLoop_signs (Binary64.RATES serviceType) Binary64.TIERS 0
           (Binary64.initialState _) (b64_RATES_positive serviceType)).
  - reflexivity.
  - constructor.
Qed.


Lemma fee_ok_guard (x : float) :
  fee_ok x -> Binary64.isNaN x || (x <? 0)%float = false.
Proof.
  unfold fee_ok. intros H. rewrite guard_spec, H. reflexivity.
Qed.


(** * Part IV: the properties *)



(** C2, as stated, fails: in the arithmetic of the code the fee of the
    1.10% line of the scenario is [4000000 * (1.1 / 100)], which is the
    double next above 44000 and not 44000. *)
Lemma binary64_goods_second_fee_not_44000 :
  exists r line,
    Binary64.calculationResult Goods 6000000%float yuan 85%float = Some r /\
    nth_error (Binary64.breakdown r) 1 = Some line /\
    Binary64.ratePercent line = "1.10%"%string /\
    Binary64.feeForTier line = (4000000 * (1.1 / 100))%float /\
    (Binary64.feeForTier line =? 44000)%float = false /\
    ~ (Binary64.value (Binary64.feeForTier line) === Fin 44000).
Proof.
  eexists. eexists. split; [vm_compute; reflexivity|].
  split; [reflexivity|]. split; [reflexivity|].
  split; [vm_compute; reflexivity|].
  split; [vm_compute; reflexivity|]. vm_compute. discriminate.
Qed.

(** C2 (amended).  For the Goods category, a base amount of 6,000,000
    (entered as 6000000 yuan or as 600 wanyuan) and a discount of 85, the
    code returns exactly three breakdown lines: 1,000,000 at 1.50% with fee
    15,000; 4,000,000 at 1.10% with fee 44000.000000000007 (that is,
    44000 + 2^-37, which the host prints as 44000.00000000001); 1,000,000
    at 0.80% with fee 8,000.  Its [originalTotalFee] is 67,000 and its
    [discountedFee] is 56,950, both exactly. *)
Theorem binary64_goods_scenario :
  (exists r,
      Binary64.calculationResult Goods 6000000%float yuan 85%float = Some r /\
      result_equiv (exactResult r) binary64_goods_result /\
      List.length (Binary64.breakdown r) = 3%nat) /\
  (exists r,
      Binary64.calculationResult Goods 600%float wanyuan 85%float = Some r /\
      result_equiv (exactResult r) binary64_goods_result /\
      List.length (Binary64.breakdown r) = 3%nat).
Proof.
  split;
    (eexists; split; [vm_compute; reflexivity|]);
    (split; [vm_compute; repeat constructor | reflexivity]).
Qed.

(** C3, as stated, fails: an infinite base amount is not finite, yet it
    passes the guard and a result (with an infinite fee) is produced. *)
Lemma infinite_amount_gives_result :
  Num.isFinite PInf = false /\
  calculationResult Goods PInf yuan (Fin 100) <> None /\
  exists r, calculationResult Goods PInf yuan (Fin 100) = Some r /\
            originalTotalFee r = PInf.
Proof.
  split; [reflexivity|]. split.
  - vm_compute. discriminate.
  - eexists. split; [vm_compute; reflexivity | reflexivity].
Qed.

(** C3 (amended).  No result at all ([null], hence neither a partial
    breakdown nor a zero result) is produced exactly when the parsed amount
    is [NaN] or negative, [-Infinity] included; every other amount,
    [+Infinity] included, gives a result. *)
Theorem no_result_iff serviceType raw unit d :
  calculationResult serviceType raw unit d = None <->
  raw = NaN \/ Num.lt raw (Fin 0).
Proof.
  rewrite calculationResult_unfold. unfold Num.lt.
  destruct raw as [| | |q]; cbn [Num.isNaN orb Num.ltb].
  - split; auto.
  - split; [discriminate | intros [H|H]; discriminate].
  - split; auto.
  - destruct (Num.Qltb q 0); split; auto; try discriminate.
    intros [H|H]; discriminate.
Qed.

(** C4, as stated, fails: [+Infinity] is not a finite number, yet it is
    kept as the discount rate, and the discounted fee differs from the
    original fee. *)
Lemma infinite_discount_kept :
  Num.isFinite PInf = false /\
  exists r,
    calculationResult Goods (Fin 100) yuan PInf = Some r /\
    discountRate r = PInf /\
    ~ (discountRate r === Fin 100) /\
    ~ (discountedFee r === originalTotalFee r).
Proof.
  split; [reflexivity|].
  eexists. split; [vm_compute; reflexivity|].
  cbn [discountRate discountedFee originalTotalFee Num.eq]. auto.
Qed.

(** C4 (amended).  For every finite base amount [q >= 0] and category, a
    parsed discount that is [NaN] or negative ([-Infinity] included) is
    replaced by 100, so that [discountedFee] equals [originalTotalFee]; a
    result is produced, not an error. *)
Theorem discount_fallback serviceType (q : Q) unit d :
  (0 <= q)%Q ->
  d = NaN \/ Num.lt d (Fin 0) ->
  exists r,
    calculationResult serviceType (Fin q) unit d = Some r /\
    discountRate r = Fin 100 /\
    discountedFee r === originalTotalFee r.
Proof.
  intros Hq Hd.
  destruct (calculationResult_finite serviceType q unit d Hq)
    as (t & a & Hr & _).
  assert (He : effectiveDiscount d = Fin 100).
  { unfold effectiveDiscount. destruct Hd as [-> | Hd]; [reflexivity|].
    unfold Num.lt in Hd. rewrite Hd. now rewrite orb_true_r. }
  rewrite He in Hr.
  eexists. split; [exact Hr|]. cbn [discountRate discountedFee originalTotalFee].
  split; [reflexivity | apply discount_100].
Qed.

Lemma discount_fallback_witness :
  ((0 <= 250)%Q /\ (Fin (-5) = NaN \/ Num.lt (Fin (-5)) (Fin 0)) /\
   exists r,
     calculationResult Services (Fin 250) wanyuan (Fin (-5)) = Some r /\
     discountRate r = Fin 100 /\
     discountedFee r === originalTotalFee r) /\
  ((0 <= 250)%Q /\ (NaN = NaN \/ Num.lt NaN (Fin 0)) /\
   exists r,
     calculationResult Services (Fin 250) wanyuan NaN = Some r /\
     discountRate r = Fin 100 /\
     discountedFee r === originalTotalFee r).
Proof.
  split; (split; [discriminate|]).
  - split; [right; reflexivity|].
    apply (discount_fallback Services 250 wanyuan (Fin (-5)));
      [discriminate | right; reflexivity].
  - split; [left; reflexivity|].
    apply (discount_fallback Services 250 wanyuan NaN);
      [discriminate | left; reflexivity].
Defined.



(** C6 (zero case and non-emptiness).  For every category, unit and finite
    input [q >= 0] a result is produced; its breakdown is non-empty when the
    base amount is positive, and when the base amount is zero the breakdown
    is empty and the [originalTotalFee] is zero. *)
Theorem breakdown_empty_only_at_zero serviceType (q : Q) unit d :
  (0 <= q)%Q ->
  exists r,
    calculationResult serviceType (Fin q) unit d = Some r /\
    ((0 < baseAmount q unit)%Q -> breakdown r <> []) /\
    ((baseAmount q unit == 0)%Q ->
     breakdown r = [] /\ originalTotalFee r === Fin 0).
Proof.
  intros Hq.
  destruct (calculationResult_finite serviceType q unit d Hq)
    as (t & a & Hr & _ & Ht & Ha & Hsum).
  eexists. split; [exact Hr|]. cbn [breakdown originalTotalFee]. split.
  - intros Hpos Hnil. rewrite Hnil in Ha. injection Ha as Ha.
    rewrite <- Ha in Hsum. lra.
  - intros Hz.
    destruct (finalState_equiv serviceType (Fin (baseAmount q unit)) (Fin 0) Hz)
      as (_ & Hfee & Hb & _).
    destruct (finalState_zero serviceType) as (Hb0 & Ht0).
    rewrite Hb0 in Hb. rewrite Ht0, Ht in Hfee. split.
    + inversion Hb. reflexivity.
    + exact Hfee.
Qed.

Lemma breakdown_empty_only_at_zero_witness :
  (0 <= 0)%Q /\
  exists r,
    calculationResult Works (Fin 0) wanyuan (Fin 100) = Some r /\
    ((0 < baseAmount 0 wanyuan)%Q -> breakdown r <> []) /\
    ((baseAmount 0 wanyuan == 0)%Q ->
     breakdown r = [] /\ originalTotalFee r === Fin 0).
Proof.
  split; [discriminate|].
  apply (breakdown_empty_only_at_zero Works 0 wanyuan (Fin 100)). discriminate.
Defined.

(** C7 (boundary).  When the base amount equals the (finite) limit of a
    tier, the breakdown consists of exactly the tiers whose limit is at most
    that bound, it accounts for the whole amount, and no tier with a larger
    limit (in particular the one that begins at the bound) contributes. *)
Theorem boundary_allocation serviceType t (l q : Q) unit d :
  In t TIERS -> limit t = Fin l -> (baseAmount q unit == l)%Q ->
  exists r,
    calculationResult serviceType (Fin q) unit d = Some r /\
    map tierLabel (breakdown r) = map label (tiersUpTo (Fin l)) /\
    sumAmounts (breakdown r) === Fin l /\
    forall t', In t' TIERS -> (Fin l <? limit t') = true ->
               ~ In (label t') (map tierLabel (breakdown r)).
Proof.
  intros Hin Hl Hq.
  destruct (finalState_at_limit serviceType t l Hin Hl) as (Hpos & Hlabels & Habove).
  assert (Hq0 : (0 <= q)%Q) by (destruct unit; simpl in Hq; lra).
  destruct (calculationResult_finite serviceType q unit d Hq0)
    as (tf & a & Hr & _ & _ & Ha & Hsum).
  destruct (finalState_equiv serviceType (Fin (baseAmount q unit)) (Fin l) Hq)
    as (_ & _ & Hb & _).
  apply labels_equiv in Hb.
  eexists. split; [exact Hr|]. cbn [breakdown].
  rewrite Hb, Hlabels, Ha. cbn [Num.eq].
  split; [reflexivity|]. split; [lra | exact Habove].
Qed.

Lemma boundary_allocation_witness :
  In (mkTier (Fin 5000000) "100-500万元") TIERS /\
  limit (mkTier (Fin 5000000) "100-500万元") = Fin 5000000 /\
  (baseAmount 500 wanyuan == 5000000)%Q /\
  exists r,
    calculationResult Goods (Fin 500) wanyuan (Fin 100) = Some r /\
    map tierLabel (breakdown r) = map label (tiersUpTo (Fin 5000000)) /\
    sumAmounts (breakdown r) === Fin 5000000 /\
    forall t', In t' TIERS -> (Fin 5000000 <? limit t') = true ->
               ~ In (label t') (map tierLabel (breakdown r)).
Proof.
  assert (Hin : In (mkTier (Fin 5000000) "100-500万元") TIERS)
    by (right; left; reflexivity).
  split; [exact Hin|]. split; [reflexivity|]. split; [reflexivity|].
  apply (boundary_allocation Goods (mkTier (Fin 5000000) "100-500万元")
           5000000 500 wanyuan (Fin 100) Hin); reflexivity.
Defined.

(** C8 (monotonicity).  For a fixed category and unit, and finite inputs
    [0 <= a <= b], both results exist, their [originalTotalFee]s are finite,
    and the fee for [a] is at most the fee for [b]. *)
Theorem fee_monotone serviceType unit (a b : Q) da db :
  (0 <= a)%Q -> (a <= b)%Q ->
  exists ra rb fa fb,
    calculationResult serviceType (Fin a) unit da = Some ra /\
    calculationResult serviceType (Fin b) unit db = Some rb /\
    originalTotalFee ra = Fin fa /\ originalTotalFee rb = Fin fb /\
    (fa <= fb)%Q.
Proof.
  intros Ha Hab.
  assert (Hb : (0 <= b)%Q) by lra.
  destruct (calculationResult_finite serviceType a unit da Ha)
    as (fa & sa & Hra & _ & Hfa & _).
  destruct (calculationResult_finite serviceType b unit db Hb)
    as (fb & sb & Hrb & _ & Hfb & _).
  assert (Hbase : (baseAmount a unit <= baseAmount b unit)%Q)
    by (destruct unit; simpl; lra).
  destruct (finalState_monotone serviceType _ _ (baseAmount_nonneg a unit Ha) Hbase)
    as (fa' & fb' & Hfa' & Hfb' & Hle).
  rewrite Hfa in Hfa'. rewrite Hfb in Hfb'.
  injection Hfa' as ->. injection Hfb' as ->.
  exists (mkResult (Fin fa') (Fin fa' * (effectiveDiscount da / Fin 100))
                     (Fin (baseAmount a unit))
                     (Loop.breakdown
                        (finalState serviceType (Fin (baseAmount a unit))))
                     (effectiveDiscount da)).
  exists (mkResult (Fin fb') (Fin fb' * (effectiveDiscount db / Fin 100))
                     (Fin (baseAmount b unit))
                     (Loop.breakdown
                        (finalState serviceType (Fin (baseAmount b unit))))
                     (effectiveDiscount db)).
  exists fa', fb'.
  split; [exact Hra|]. split; [exact Hrb|].
  split; [reflexivity|]. split; [reflexivity|]. exact Hle.
Qed.

Lemma fee_monotone_witness :
  (0 <= 999999.99)%Q /\ (999999.99 <= 1000000.01)%Q /\
  exists ra rb fa fb,
    calculationResult Services (Fin 999999.99) yuan (Fin 100) = Some ra /\
    calculationResult Services (Fin 1000000.01) yuan (Fin 100) = Some rb /\
    originalTotalFee ra = Fin fa /\ originalTotalFee rb = Fin fb /\
    (fa <= fb)%Q.
Proof.
  split; [discriminate|]. split; [discriminate|].
  apply (fee_monotone Services yuan 999999.99 1000000.01 (Fin 100) (Fin 100));
    discriminate.
Defined.

(** C9 (registry invariants).  The limits of [TIERS] are strictly
    increasing; [TIERS] is a list of finite-limit tiers followed by one tier
    of unbounded limit, which is thus the only unbounded one and the last;
    every rate list has as many entries as there are tiers; and every rate
    is a finite, non-negative number. *)
Theorem registry_invariants :
  StronglySorted Num.lt (map limit TIERS) /\
  (exists finite lbl,
      TIERS = finite ++ [mkTier PInf lbl] /\
      Forall (fun t => Num.isFinite (limit t) = true) finite) /\
  (forall serviceType,
      List.length (RATES serviceType) = List.length TIERS) /\
  (forall serviceType,
      Forall (fun rate => exists c, rate = Fin c /\ (0 <= c)%Q)
             (RATES serviceType)).
Proof.
  split; [|split; [|split]].
  - unfold TIERS; cbn [map limit].
    repeat (apply SSorted_cons; [|repeat constructor]). apply SSorted_nil.
  - exists (firstn 6 TIERS), (label (last TIERS (mkTier NaN ""))).
    split; [reflexivity|]. cbn [firstn TIERS]. repeat constructor.
  - intros []; reflexivity.
  - intros []; cbn [RATES];
      repeat (apply Forall_cons; [eexists; split; [reflexivity|discriminate]|]);
      apply Forall_nil.
Qed.

(** C10 (unit conversion).  In the arithmetic of the code, for every
    result: the reported [bidAmount] is the double [rawValue * 10000]
    (rounded as the host does, [Infinity] on overflow) when the unit is
    'wanyuan' and the parsed value itself when the unit is 'yuan'; the
    breakdown and the fee are those of the tier loop started on that
    [bidAmount]; and the [bidAmount], entered in 'yuan', passes the guard
    and gives the very same result: the conversion happens before, and
    apart from, the allocation. *)
Theorem binary64_unit_conversion serviceType rawValue unit parsedDiscount r :
  Binary64.calculationResult serviceType rawValue unit parsedDiscount = Some r ->
  Binary64.bidAmount r
    = match unit with
      | wanyuan => (rawValue * 10000)%float
      | yuan => rawValue
      end /\
  Binary64.breakdown r
    = Binary64.Loop.breakdown
        (Binary64.tierLoop (Binary64.RATES serviceType) Binary64.TIERS 0
           (Binary64.initialState (Binary64.bidAmount r))) /\
  Binary64.originalTotalFee r
    = Binary64.Loop.originalTotalFee
        (Binary64.tierLoop (Binary64.RATES serviceType) Binary64.TIERS 0
           (Binary64.initialState (Binary64.bidAmount r))) /\
  Binary64.calculationResult serviceType (Binary64.bidAmount r) yuan
    parsedDiscount = Some r.
Proof.
  intros Hr.
  destruct (b64_calculationResult_fields _ _ _ _ _ Hr)
    as (Hguard & Hbid & Hlines & Hfee & Hrate & Hlin).
  cbv zeta in Hlines, Hfee. rewrite <- Hbid in Hlines, Hfee.
  split; [exact Hbid|]. split; [exact Hlines|]. split; [exact Hfee|].
  assert (Hpass : Binary64.isNaN (Binary64.bidAmount r)
                  || (Binary64.bidAmount r <? 0)%float = false).
  { rewrite Hbid. destruct unit; [exact Hguard|].
    rewrite guard_spec in *. apply negb_false_iff in Hguard.
    apply negb_false_iff. rewrite mul_spec.
    change (Prim2SF 10000) with (S754_finite false 5497558138880000 (-39)).
    apply SF64mul_not_negative. exact Hguard. }
  destruct (b64_calculationResult_passes serviceType (Binary64.bidAmount r)
              yuan parsedDiscount Hpass) as [r' Hr'].
  rewrite Hr'. f_equal.
  destruct (b64_calculationResult_fields _ _ _ _ _ Hr')
    as (_ & Hbid' & Hlines' & Hfee' & Hrate' & Hlin').
  cbv zeta in Hlines', Hfee'.
  rewrite <- Hlines in Hlines'. rewrite <- Hfee in Hfee'.
  rewrite <- Hrate in Hrate'. rewrite Hfee', Hrate', <- Hlin in Hlin'.
  destruct r, r'.
  cbn [Binary64.bidAmount Binary64.breakdown Binary64.originalTotalFee
       Binary64.discountRate Binary64.discountedFee] in *.
  congruence.
Qed.

Lemma binary64_unit_conversion_witness :
  exists r,
    Binary64.calculationResult Services 0.07%float wanyuan 100%float = Some r /\
    Binary64.bidAmount r = (0.07 * 10000)%float /\
    Binary64.calculationResult Services (0.07 * 10000)%float yuan 100%float
      = Some r.
Proof.
  destruct (Binary64.calculationResult Services 0.07%float wanyuan 100%float)
    as [r|] eqn:E.
  - exists r. split; [reflexivity|].
    pose proof (binary64_unit_conversion Services 0.07%float wanyuan
                  100%float r E) as (Hbid & _ & _ & Hyuan).
    split; [exact Hbid|]. rewrite <- Hbid. exact Hyuan.
  - vm_compute in E. discriminate.
Defined.

(** The conversion rounds and overflows as the host does: 0.07 wanyuan is
    the base amount 700.0000000000001 and not 700, and 1e308 wanyuan is the
    base amount [Infinity]. *)
Lemma binary64_conversion_rounds :
  (0.07 * 10000 =? 700)%float = false /\
  Binary64.value (0.07 * 10000)%float = Fin (700 + (1 # 8796093022208)) /\
  (1e308 * 10000)%float = infinity.
Proof. repeat split; vm_compute; reflexivity. Qed.

(** * Part V: further properties of the calculation *)

(** ** The fee is a number *)

(** X2 (the fee is a number).  In the arithmetic of the code, for every
    result, whatever the inputs (infinite amounts and roundings included):
    the [originalTotalFee] is a number, never [NaN] and never negative;
    every line of the breakdown has a positive [amountInTier] and a
    [feeForTier] that is a number and is not negative; and the breakdown
    has at most seven lines, one per tier. *)
Theorem binary64_fee_is_a_number serviceType rawValue unit parsedDiscount r :
  Binary64.calculationResult serviceType rawValue unit parsedDiscount = Some r ->
  Binary64.isNaN (Binary64.originalTotalFee r) = false /\
  (Binary64.originalTotalFee r <? 0)%float = false /\
  Forall (fun line =>
            (0 <? Binary64.amountInTier line)%float = true /\
            Binary64.isNaN (Binary64.feeForTier line) = false /\
            (Binary64.feeForTier line <? 0)%float = false)
         (Binary64.breakdown r) /\
  (List.length (Binary64.breakdown r) <= 7)%nat.
Proof.
  intros Hr.
  destruct (b64_result_signs _ _ _ _ _ Hr) as (Hfee & Hlines & Hlen).
  pose proof (fee_ok_guard _ Hfee) as Hg. apply orb_false_elim in Hg.
  split; [exact (proj1 Hg)|]. split; [exact (proj2 Hg)|].
  split; [|exact Hlen].
  apply (Forall_impl _ (P := line_ok)); [|exact Hlines].
  intros line [Hpos Hf]. pose proof (fee_ok_guard _ Hf) as Hl.
  apply orb_false_elim in Hl. split; [exact Hpos | exact Hl].
Qed.

Lemma binary64_fee_is_a_number_witness :
  exists r,
    Binary64.calculationResult Works infinity wanyuan nan = Some r /\
    Binary64.isNaN (Binary64.originalTotalFee r) = false /\
    (List.length (Binary64.breakdown r) <= 7)%nat.
Proof.
  destruct (Binary64.calculationResult Works infinity wanyuan nan)
    as [r|] eqn:E.
  - exists r. split; [reflexivity|].
    pose proof (binary64_fee_is_a_number Works infinity wanyuan nan r E)
      as (H1 & _ & _ & H4).
    split; [exact H1 | exact H4].
  - vm_compute in E. discriminate.
Defined.

(** ** What the component derives from the result *)

(** X3 (details shown).  In the arithmetic of the code, the summary row and
    the breakdown section are rendered (a result exists and its
    [originalTotalFee] is greater than 0) only when the parsed amount is
    greater than 0.  The converse fails where the fee underflows: the
    smallest positive double, 5e-324 yuan, gives a result with one line and
    the fee 0, and nothing is rendered. *)
Theorem binary64_details_shown serviceType rawValue unit parsedDiscount :
  (Binary64.showsDetails
     (Binary64.calculationResult serviceType rawValue unit parsedDiscount)
   = true ->
   (0 <? rawValue)%float = true) /\
  (exists r,
     (0 <? 0x1p-1074)%float = true /\
     Binary64.calculationResult serviceType 0x1p-1074%float yuan
       parsedDiscount = Some r /\
     List.length (Binary64.breakdown r) = 1%nat /\
     Binary64.showsDetails (Some r) = false).
Proof.
  split.
  - destruct (Binary64.calculationResult serviceType rawValue unit
                parsedDiscount) as [r|] eqn:Hr; [|discriminate].
    cbn [Binary64.showsDetails]. intros Hshow.
    destruct (b64_calculationResult_fields _ _ _ _ _ Hr)
      as (Hguard & _ & _ & Hfee & _).
    cbv zeta in Hfee. rewrite Hfee in Hshow. clear Hfee Hr.
    rewrite guard_spec in Hguard. apply negb_false_iff in Hguard.
    rewrite positive_spec.
    destruct (Prim2SF rawValue) as [s | s | | s m e] eqn:E;
      try discriminate; try (destruct s; (discriminate || reflexivity)).
    exfalso.
    assert (Hraw : rawValue = SF2Prim (S754_zero s))
      by (rewrite <- E; symmetry; apply SF2Prim_Prim2SF).
    rewrite Hraw in Hshow. clear - Hshow.
    destruct s, serviceType, unit; vm_compute in Hshow; discriminate.
  - destruct (b64_calculationResult_passes serviceType 0x1p-1074%float yuan
                parsedDiscount eq_refl) as [r Hr].
    exists r. split; [reflexivity|]. split; [exact Hr|].
    destruct (b64_calculationResult_fields _ _ _ _ _ Hr)
      as (_ & _ & Hlines & Hfee & _).
    cbv zeta in Hlines, Hfee. cbn [Binary64.showsDetails].
    rewrite Hlines, Hfee. clear.
    destruct serviceType; split; vm_compute; reflexivity.
Qed.

Lemma binary64_details_shown_witness :
  Binary64.showsDetails
    (Binary64.calculationResult Goods 600%float wanyuan 85%float) = true /\
  (0 <? 600)%float = true.
Proof.
  split; [vm_compute; reflexivity|].
  apply (binary64_details_shown Goods 600%float wanyuan 85%float).
  vm_compute. reflexivity.
Defined.

Lemma effectiveDiscount_fin e :
  (0 <= e)%Q -> effectiveDiscount (Fin e) = Fin e.
Proof.
  intros He. unfold effectiveDiscount. cbn [Num.isNaN orb Num.ltb].
  now replace (Num.Qltb e 0) with false by (symmetry; now apply Qltb_false).
Qed.

(** X4 (discount applied).  Whatever the inputs, [isDiscountApplied] holds
    exactly when a result exists and the parsed discount is a finite number
    [e] with [0 <= e < 100]; a discount that is [NaN], negative, infinite,
    or 100 and above never counts as applied. *)
Theorem discount_applied_iff serviceType raw unit d :
  isDiscountApplied (calculationResult serviceType raw unit d) = true <->
  calculationResult serviceType raw unit d <> None /\
  exists e, d = Fin e /\ (0 <= e)%Q /\ (e < 100)%Q.
Proof.
  rewrite calculationResult_unfold.
  destruct (Num.isNaN raw || (raw <? Fin 0)).
  - split; [discriminate | intros [H _]; now contradiction H].
  - cbn zeta. cbn [isDiscountApplied discountRate].
    destruct d as [| | |e].
    + split; [discriminate | intros [_ (e & He & _)]; discriminate].
    + split; [discriminate | intros [_ (e & He & _)]; discriminate].
    + split; [discriminate | intros [_ (e & He & _)]; discriminate].
    + destruct (Qlt_le_dec e 0) as [Hneg | He].
      * unfold effectiveDiscount. cbn [Num.isNaN orb Num.ltb].
        replace (Num.Qltb e 0) with true by (symmetry; now apply Qltb_true).
        split; [discriminate|].
        intros [_ (e' & He' & H0 & _)]. injection He' as <-. lra.
      * rewrite (effectiveDiscount_fin e He).
        change (Fin e <? Fin 100) with (Num.Qltb e 100).
        rewrite Qltb_true. split.
        -- intros Hlt. split; [discriminate|]. exists e. auto.
        -- intros [_ (e' & He' & _ & Hlt)]. now injection He' as <-.
Qed.

Lemma scale_le f x y : (0 <= f)%Q -> (x <= y)%Q -> (f * x <= f * y)%Q.
Proof.
  intros Hf Hxy. rewrite (Qmult_comm f x), (Qmult_comm f y).
  now apply Qmult_le_compat_r.
Qed.

(** X5 (discounted fee and difference).  For every result with a finite
    [originalTotalFee], obtained with a finite discount [e >= 0]: the
    [discountedFee] is never negative; it is at most the [originalTotalFee]
    when [e <= 100], and at least it when [e >= 100] (a markup); and
    whenever the discount counts as applied, the displayed difference
    [originalTotalFee - discountedFee] is not negative. *)
Theorem discounted_fee_order serviceType raw unit (e f : Q) r :
  calculationResult serviceType raw unit (Fin e) = Some r ->
  originalTotalFee r = Fin f ->
  (0 <= e)%Q ->
  (Fin 0 <=? discountedFee r) = true /\
  ((e <= 100)%Q -> (discountedFee r <=? originalTotalFee r) = true) /\
  ((100 <= e)%Q -> (originalTotalFee r <=? discountedFee r) = true) /\
  (isDiscountApplied (Some r) = true ->
   (Fin 0 <=? feeDifference r) = true).
Proof.
  intros Hr Hf He.
  pose proof (calculationResult_fields _ _ _ _ _ Hr)
    as (_ & _ & _ & _ & Hrate & Hd).
  assert (Hf0 : (0 <= f)%Q).
  { destruct (originalTotalFee_cases _ _ _ _ _ Hr) as [(t & Ht & Ht0) | Hinf];
      [rewrite Hf in Ht | rewrite Hf in Hinf; discriminate].
    injection Ht as ->. exact Ht0. }
  clear Hr.
  rewrite (effectiveDiscount_fin e He) in Hrate. rewrite Hrate, Hf in Hd.
  change (Fin f * (Fin e / Fin 100)) with (Fin (f * (e / 100))) in Hd.
  unfold feeDifference. cbn [isDiscountApplied]. rewrite Hd, Hf, Hrate.
  change (Fin f - Fin (f * (e / 100))) with (Fin (f - f * (e / 100))).
  change (Fin e <? Fin 100) with (Num.Qltb e 100).
  change (Fin 0 <=? Fin (f * (e / 100))) with (Num.Qleb 0 (f * (e / 100))).
  change (Fin (f * (e / 100)) <=? Fin f) with (Num.Qleb (f * (e / 100)) f).
  change (Fin f <=? Fin (f * (e / 100))) with (Num.Qleb f (f * (e / 100))).
  change (Fin 0 <=? Fin (f - f * (e / 100)))
    with (Num.Qleb 0 (f - f * (e / 100))).
  rewrite !Qleb_true, Qltb_true.
  assert (Hone : (f * 1 == f)%Q) by ring.
  assert (Hle : (e <= 100)%Q -> (f * (e / 100) <= f)%Q).
  { intros H. rewrite <- Hone at 2. apply scale_le; [exact Hf0|].
    unfold Qdiv. setoid_replace 1%Q with (100 * / 100)%Q by reflexivity.
    apply Qmult_le_compat_r; [exact H | easy]. }
  split; [apply fee_nonneg; assumption|].
  split; [exact Hle|]. split.
  - intros H. rewrite <- Hone at 1. apply scale_le; [exact Hf0|].
    unfold Qdiv. setoid_replace 1%Q with (100 * / 100)%Q by reflexivity.
    apply Qmult_le_compat_r; [exact H | easy].
  - intros Hlt. assert (H : (e <= 100)%Q) by lra. specialize (Hle H). lra.
Qed.

Lemma discounted_fee_order_witness :
  exists r f,
    calculationResult Goods (Fin 600) wanyuan (Fin 85) = Some r /\
    originalTotalFee r = Fin f /\
    (0 <= 85)%Q /\
    (Fin 0 <=? discountedFee r) = true /\
    ((85 <= 100)%Q -> (discountedFee r <=? originalTotalFee r) = true).
Proof.
  destruct (calculationResult Goods (Fin 600) wanyuan (Fin 85)) as [r|] eqn:E.
  - destruct (originalTotalFee_cases _ _ _ _ _ E) as [(f & Hf & _) | Hinf].
    + assert (He : (0 <= 85)%Q) by discriminate.
      exists r, f. split; [reflexivity|]. split; [exact Hf|].
      split; [exact He|].
      pose proof (discounted_fee_order Goods (Fin 600) wanyuan 85 f r E Hf He)
        as (H1 & H2 & _).
      split; [exact H1 | exact H2].
    + exfalso. vm_compute in E. apply Some_inj in E. subst r.
      discriminate Hinf.
  - vm_compute in E. discriminate.
Defined.

(** ** The lines of the breakdown *)

Lemma sumFees_snoc items it :
  sumFees (items ++ [it]) = sumFees items + feeForTier it.
Proof. unfold sumFees. now rewrite fold_left_app. Qed.

Lemma tierLoop_fee_sum rates tiers :
  forall i s,
    Loop.originalTotalFee s = sumFees (Loop.breakdown s) ->
    Loop.originalTotalFee (tierLoop rates tiers i s) =
      sumFees (Loop.breakdown (tierLoop rates tiers i s)).
Proof.
  induction tiers as [| tier rest IH]; intros i s Hs; [exact Hs|].
  rewrite tierLoop_cons; cbn zeta.
  destruct (_ >? Fin 0).
  - apply IH. cbn [Loop.originalTotalFee Loop.breakdown].
    rewrite sumFees_snoc, Hs. reflexivity.
  - destruct (_ && _); [exact Hs|]. apply IH. exact Hs.
Qed.

(** X6 (fee is the sum of the lines).  Whatever the inputs, the
    [originalTotalFee] of a result is the sum, in order, of the
    [feeForTier] of its breakdown lines. *)
Theorem fee_is_sum_of_lines serviceType raw unit d r :
  calculationResult serviceType raw unit d = Some r ->
  originalTotalFee r = sumFees (breakdown r).
Proof.
  rewrite calculationResult_unfold.
  destruct (Num.isNaN raw || (raw <? Fin 0)); [discriminate|].
  cbn zeta. intros H; injection H as <-.
  cbn [originalTotalFee breakdown]. unfold finalState.
  exact (tierLoop_fee_sum (RATES serviceType) TIERS 0
           (initialState (convert raw unit)) eq_refl).
Qed.

Lemma fee_is_sum_of_lines_witness :
  exists r,
    calculationResult Services (Fin 7500) wanyuan (Fin 90) = Some r /\
    originalTotalFee r = sumFees (breakdown r).
Proof.
  destruct (calculationResult Services (Fin 7500) wanyuan (Fin 90))
    as [r|] eqn:E.
  - exists r. split; [reflexivity|].
    exact (fee_is_sum_of_lines Services (Fin 7500) wanyuan (Fin 90) r E).
  - vm_compute in E. discriminate.
Defined.

Lemma tierLoop_allocation rates1 rates2 tiers :
  forall i s1 s2,
    Loop.remainingAmount s1 = Loop.remainingAmount s2 ->
    Loop.previousLimit s1 = Loop.previousLimit s2 ->
    map (fun it => (tierLabel it, amountInTier it)) (Loop.breakdown s1) =
    map (fun it => (tierLabel it, amountInTier it)) (Loop.breakdown s2) ->
    map (fun it => (tierLabel it, amountInTier it))
        (Loop.breakdown (tierLoop rates1 tiers i s1)) =
    map (fun it => (tierLabel it, amountInTier it))
        (Loop.breakdown (tierLoop rates2 tiers i s2)).
Proof.
  induction tiers as [| tier rest IH]; intros i s1 s2 Hr Hp Hb; [exact Hb|].
  rewrite !tierLoop_cons; cbn zeta. rewrite Hr, Hp.
  destruct (_ >? Fin 0).
  - apply IH; cbn [Loop.remainingAmount Loop.previousLimit Loop.breakdown];
      try reflexivity.
    rewrite !map_app, Hb. reflexivity.
  - destruct (_ && _); [exact Hb|]. apply IH; try reflexivity. exact Hb.
Qed.

(** X7 (allocation does not depend on the category).  Whatever the inputs,
    two categories (and two discounts) either both give no result, or give
    results with the same [bidAmount] and the same tiers with the same
    [amountInTier], in the same order. *)
Theorem allocation_independent_of_category
        serviceType1 serviceType2 raw unit d1 d2 :
  option_map allocation (calculationResult serviceType1 raw unit d1) =
  option_map allocation (calculationResult serviceType2 raw unit d2).
Proof.
  rewrite !calculationResult_unfold.
  destruct (Num.isNaN raw || (raw <? Fin 0)); [reflexivity|].
  cbn zeta. cbn [option_map]. unfold allocation.
  cbn [bidAmount breakdown]. unfold finalState.
  rewrite (tierLoop_allocation (RATES serviceType1) (RATES serviceType2) TIERS 0
             (initialState (convert raw unit)) (initialState (convert raw unit))
             eq_refl eq_refl eq_refl).
  reflexivity.
Qed.

(** ** Comparing the categories *)

Lemma div100_le x y : (x <= y)%Q -> (x / 100 <= y / 100)%Q.
Proof. intros H. unfold Qdiv. apply Qmult_le_compat_r; [exact H | easy]. Qed.

(** Two runs from the same remainder, the second with the larger rates and
    the larger running fee, end with the fees in the same order. *)
Lemma tierLoop_rate_dominance rates1 rates2 tiers prev :
  ascending prev tiers ->
  forall i s1 s2 r t1 t2,
    rates_below rates1 rates2 i (List.length tiers) ->
    Loop.remainingAmount s1 = Fin r -> Loop.remainingAmount s2 = Fin r ->
    (0 <= r)%Q ->
    Loop.originalTotalFee s1 = Fin t1 -> Loop.originalTotalFee s2 = Fin t2 ->
    (t1 <= t2)%Q ->
    Loop.previousLimit s1 = prev -> Loop.previousLimit s2 = prev ->
    exists t1' t2',
      Loop.originalTotalFee (tierLoop rates1 tiers i s1) = Fin t1' /\
      Loop.originalTotalFee (tierLoop rates2 tiers i s2) = Fin t2' /\
      (t1' <= t2')%Q.
Proof.
  induction 1 as [prev | p lim lbl rest Hlim Hasc IH];
    intros i s1 s2 r t1 t2 Hrates Hr1 Hr2 Hr0 Ht1 Ht2 Ht Hp1 Hp2.
  - exists t1, t2. cbn [tierLoop]. auto.
  - rewrite !tierLoop_cons; cbn zeta. cbn [limit label].
    rewrite Hr1, Hr2, Hp1, Hp2, !(amount_eq _ p lim Hlim).
    destruct (Hrates i) as (c1 & c2 & Hc1 & Hc2 & Hc0 & Hc); [simpl; lia|].
    rewrite Hc1, Hc2, !rate_div.
    destruct (amountOf_bounds r p lim Hr0 Hlim) as (B0 & B1 & _).
    assert (Hfee : (amountOf r p lim * (c1 / 100)
                    <= amountOf r p lim * (c2 / 100))%Q)
      by (apply scale_le; [exact B0 | now apply div100_le]).
    assert (Hrates' : rates_below rates1 rates2 (S i) (List.length rest)).
    { intros j Hj. apply Hrates. simpl. lia. }
    destruct (Fin (amountOf r p lim) >? Fin 0).
    + apply (IH (S i) _ _ (r - amountOf r p lim)%Q
                (t1 + amountOf r p lim * (c1 / 100))%Q
                (t2 + amountOf r p lim * (c2 / 100))%Q Hrates');
        cbn [Loop.originalTotalFee]; rewrite ?Ht1, ?Ht2;
        try reflexivity; lra.
    + destruct (_ && _).
      * exists t1, t2. auto.
      * apply (IH (S i) _ _ r t1 t2 Hrates'); try reflexivity; assumption.
Qed.

Lemma RATES_below_Goods serviceType :
  rates_below (RATES serviceType) (RATES Goods) 0 (List.length TIERS).
Proof.
  intros j Hj. simpl in Hj.
  assert (Hcases : (j = 0 \/ j = 1 \/ j = 2 \/ j = 3 \/ j = 4 \/ j = 5 \/ j = 6)%nat)
    by lia.
  destruct serviceType;
    repeat (destruct Hcases as [-> | Hcases]); try subst j;
    (do 2 eexists; split; [reflexivity|]; split; [reflexivity|];
     split; discriminate).
Qed.

Lemma finalState_below_Goods serviceType b :
  (0 <= b)%Q ->
  exists f fg,
    Loop.originalTotalFee (finalState serviceType (Fin b)) = Fin f /\
    Loop.originalTotalFee (finalState Goods (Fin b)) = Fin fg /\
    (f <= fg)%Q.
Proof.
  intros Hb. unfold finalState.
  exact (tierLoop_rate_dominance (RATES serviceType) (RATES Goods) TIERS (Fin 0)
           TIERS_ascending 0 (initialState (Fin b)) (initialState (Fin b)) b 0 0
           (RATES_below_Goods serviceType) eq_refl eq_refl Hb eq_refl eq_refl
           (Qle_refl 0) eq_refl eq_refl).
Qed.

(** X8 (goods cost most).  For every unit and finite input [q >= 0], the
    fee of any category is at most the fee of the goods category for the
    same amount. *)
Theorem goods_fee_is_highest serviceType unit (q : Q) d dg :
  (0 <= q)%Q ->
  exists r rg f fg,
    calculationResult serviceType (Fin q) unit d = Some r /\
    calculationResult Goods (Fin q) unit dg = Some rg /\
    originalTotalFee r = Fin f /\ originalTotalFee rg = Fin fg /\
    (f <= fg)%Q.
Proof.
  intros Hq.
  destruct (calculationResult_finite serviceType q unit d Hq)
    as (f & s & Hr & _ & Hf & _).
  destruct (calculationResult_finite Goods q unit dg Hq)
    as (fg & sg & Hrg & _ & Hfg & _).
  destruct (finalState_below_Goods serviceType _ (baseAmount_nonneg q unit Hq))
    as (f' & fg' & Hf' & Hfg' & Hle).
  rewrite Hf in Hf'. rewrite Hfg in Hfg'.
  injection Hf' as <-. injection Hfg' as <-.
  exists (mkResult (Fin f) (Fin f * (effectiveDiscount d / Fin 100))
                     (Fin (baseAmount q unit))
                     (Loop.breakdown
                        (finalState serviceType (Fin (baseAmount q unit))))
                     (effectiveDiscount d)).
  exists (mkResult (Fin fg) (Fin fg * (effectiveDiscount dg / Fin 100))
                     (Fin (baseAmount q unit))
                     (Loop.breakdown
                        (finalState Goods (Fin (baseAmount q unit))))
                     (effectiveDiscount dg)).
  exists f, fg.
  split; [exact Hr|]. split; [exact Hrg|].
  split; [reflexivity|]. split; [reflexivity|]. exact Hle.
Qed.

Lemma goods_fee_is_highest_witness :
  (0 <= 3000)%Q /\
  exists r rg f fg,
    calculationResult Works (Fin 3000) wanyuan (Fin 100) = Some r /\
    calculationResult Goods (Fin 3000) wanyuan (Fin 100) = Some rg /\
    originalTotalFee r = Fin f /\ originalTotalFee rg = Fin fg /\
    (f <= fg)%Q.
Proof.
  split; [discriminate|].
  apply (goods_fee_is_highest Works wanyuan 3000 (Fin 100) (Fin 100)).
  discriminate.
Defined.

(** ** The headings of the breakdown *)

Lemma marginal_lines_lower rates b lower lower' i tiers lines :
  marginal_lines rates b lower i tiers lines ->
  (lower == lower')%Q \/ ((b <= lower)%Q /\ (b <= lower')%Q) ->
  marginal_lines rates b lower' i tiers lines.
Proof.
  intros H Hl.
  destruct H as [lower i tiers Hnil
                | lower i tier rest c line lines Hlt Hc Hlab Hrate Hamt Hfee Hrest].
  - apply ml_nil. destruct Hnil as [Hb | ->]; [|now right].
    left. destruct Hl as [Heq | [_ Hb']]; lra.
  - assert (Heq : (lower == lower')%Q) by (destruct Hl as [Heq | [Hb _]]; lra).
    apply ml_cons with (c := c); try assumption.
    + lra.
    + destruct (amountInTier line); try contradiction.
      cbn [Num.eq] in *. lra.
    + destruct (feeForTier line); try contradiction.
      cbn [Num.eq] in *. rewrite Hfee, Heq. reflexivity.
Qed.

Lemma marginal_lines_exhausted rates b lower i tiers lines :
  marginal_lines rates b lower i tiers lines -> (b <= lower)%Q -> lines = [].
Proof. intros H Hb. destruct H; [reflexivity | lra]. Qed.

Lemma amountOf_capped b r p lim :
  above p lim -> (r == Qmax (b - p) 0)%Q -> (0 < r)%Q ->
  (amountOf r p lim == capped b lim - p)%Q.
Proof.
  destruct lim; simpl; intros Hlim Hr Hpos; try contradiction;
    revert Hr; qminmax.
Qed.

Section MarginalLines.

Variable rates : list num.
Variable b : Q.

(** The lines a run appends are the marginal allocation of what is left of
    [b] above the previous limit. *)
Lemma tierLoop_lines tiers prev :
  ascending prev tiers ->
  forall i s r p,
    rates_cover rates i (List.length tiers) ->
    Loop.remainingAmount s = Fin r ->
    prev = Fin p -> Loop.previousLimit s = prev ->
    (r == Qmax (b - p) 0)%Q ->
    exists ext,
      Loop.breakdown (tierLoop rates tiers i s) = Loop.breakdown s ++ ext /\
      marginal_lines rates b p i tiers ext.
Proof.
  induction 1 as [prev | p0 lim lbl rest Hlim Hasc IH];
    intros i s r p Hrates Hr Hprev Hp Hrb.
  - exists []. cbn [tierLoop]. rewrite app_nil_r.
    split; [reflexivity|]. apply ml_nil. now right.
  - injection Hprev as <-.
    assert (Hr0 : (0 <= r)%Q) by (revert Hrb; qminmax).
    rewrite tierLoop_cons; cbn zeta. cbn [limit label].
    rewrite Hr, Hp, (amount_eq r p0 lim Hlim).
    destruct (Hrates i) as (c & Hc & Hc0); [simpl; lia|].
    rewrite Hc, rate_div.
    destruct (amountOf_bounds r p0 lim Hr0 Hlim) as (B0 & B1 & B2 & B3).
    assert (Hrates' : rates_cover rates (S i) (List.length rest)).
    { intros j Hj. apply Hrates. simpl. lia. }
    change (Fin (amountOf r p0 lim) >? Fin 0)
      with (Num.Qltb 0 (amountOf r p0 lim)).
    change (Fin r <=? Fin 0) with (Num.Qleb r 0).
    destruct (Num.Qltb 0 (amountOf r p0 lim)) eqn:E.
    + apply Qltb_true in E.
      assert (Hpos : (0 < r)%Q) by lra.
      assert (Hlow : (p0 < b)%Q) by (revert Hrb; qminmax).
      pose proof (amountOf_capped b r p0 lim Hlim Hrb Hpos) as Hcap.
      set (line := mkItem lbl (Num.toFixed2 (Fin c) ++ "%")%string
                          (Fin (amountOf r p0 lim))
                          (Fin (amountOf r p0 lim) * Fin (c / 100))).
      assert (Hline : forall lines,
                 marginal_lines rates b (capped b lim) (S i) rest lines ->
                 marginal_lines rates b p0 i (mkTier lim lbl :: rest)
                                (line :: lines)).
      { intros lines Hlines. apply ml_cons with (c := c);
          cbn [limit label tierLabel ratePercent amountInTier feeForTier
               line Num.mul Num.eq];
          first [ assumption | reflexivity | rewrite Hcap; reflexivity ]. }
      destruct lim as [| | |l]; try contradiction.
      * inversion Hasc; subst. cbn [tierLoop Loop.breakdown].
        exists [line]. split; [reflexivity|].
        apply Hline. apply ml_nil. left. simpl. lra.
      * match goal with
        | |- context [tierLoop rates rest (S i) ?s'] =>
            destruct (IH (S i) s' (r - amountOf r p0 (Fin l))%Q l Hrates')
              as (ext & Hext & Hlines)
        end; try reflexivity.
        { revert Hrb. simpl. simpl in Hlim. qminmax. }
        exists (line :: ext). split.
        -- rewrite Hext. cbn [Loop.breakdown]. rewrite <- app_assoc.
           reflexivity.
        -- apply Hline. apply (marginal_lines_lower _ _ _ _ _ _ _ Hlines).
           simpl. destruct (Qlt_le_dec l b); [left | right]; qminmax.
    + apply Qltb_false in E.
      assert (Hz : (r == 0)%Q)
        by (destruct (Qlt_le_dec 0 r) as [Hpos|]; [specialize (B2 Hpos)|]; lra).
      assert (Hlow : (b <= p0)%Q) by (revert Hrb; qminmax).
      assert (Hnil : marginal_lines rates b p0 i (mkTier lim lbl :: rest) [])
        by (apply ml_nil; now left).
      destruct (Num.Qleb r 0 && (0 <? i)%nat).
      * exists []. rewrite app_nil_r. split; [reflexivity | exact Hnil].
      * destruct lim as [| | |l]; try contradiction.
        -- inversion Hasc; subst. cbn [tierLoop Loop.breakdown].
           exists []. rewrite app_nil_r. split; [reflexivity | exact Hnil].
        -- simpl in Hlim.
           match goal with
           | |- context [tierLoop rates rest (S i) ?s'] =>
               destruct (IH (S i) s' r l Hrates') as (ext & Hext & Hlines)
           end; try reflexivity.
           { revert Hrb. qminmax. }
           assert (ext = [])
             by (apply (marginal_lines_exhausted _ _ _ _ _ _ Hlines); lra).
           subst ext. exists []. split; [exact Hext | exact Hnil].
Qed.

End MarginalLines.

Lemma marginal_lines_labels rates b lower i tiers lines :
  marginal_lines rates b lower i tiers lines ->
  map tierLabel lines = map label (firstn (List.length lines) tiers).
Proof.
  induction 1 as [| lower i tier rest c line lines _ _ Hlab _ _ _ _ IH];
    [reflexivity|].
  cbn [map List.length firstn]. now rewrite Hlab, IH.
Qed.

Lemma headings_lower rates b lower lower' i tiers :
  (lower <? b) = (lower' <? b) ->
  headings rates b lower i tiers = headings rates b lower' i tiers.
Proof. intros H. destruct tiers; cbn [headings]; [reflexivity | now rewrite H]. Qed.

Lemma capped_below b lim :
  lim <> NInf -> (lim <? Fin b) = (Fin (capped b lim) <? Fin b).
Proof.
  intros Hlim. destruct lim as [| | | l]; try contradiction.
  - cbn [capped]. change (Fin b <? Fin b) with (Num.Qltb b b).
    symmetry. apply Qltb_false. lra.
  - cbn [capped]. change (Fin b <? Fin b) with (Num.Qltb b b).
    symmetry. apply Qltb_false. lra.
  - cbn [capped]. change (Fin l <? Fin b) with (Num.Qltb l b).
    change (Fin (Qmin b l) <? Fin b) with (Num.Qltb (Qmin b l) b).
    destruct (Qlt_le_dec l b) as [H | H].
    + transitivity true; [apply Qltb_true; exact H|].
      symmetry. apply Qltb_true. revert H. qminmax.
    + transitivity false; [apply Qltb_false; exact H|].
      symmetry. apply Qltb_false. revert H. qminmax.
Qed.

(** The headings of a marginal allocation are the headings of the tiers
    that begin below the base amount. *)
Lemma marginal_lines_headings rates b lower i tiers lines :
  marginal_lines rates b lower i tiers lines ->
  Forall (fun tier => limit tier <> NInf) tiers ->
  map heading lines = headings rates (Fin b) (Fin lower) i tiers.
Proof.
  induction 1 as [lower i tiers Hnil
                 | lower i tier rest c line lines Hlt Hc Hlab Hrate _ _ _ IH];
    intros Hlim.
  - destruct tiers as [| tier rest]; [reflexivity|].
    destruct Hnil as [Hb | Hb]; [|discriminate].
    cbn [map headings]. change (Fin lower <? Fin b) with (Num.Qltb lower b).
    replace (Num.Qltb lower b) with false
      by (symmetry; apply Qltb_false; exact Hb).
    reflexivity.
  - inversion Hlim as [| ? ? Hl Hrest]; subst.
    cbn [map headings]. change (Fin lower <? Fin b) with (Num.Qltb lower b).
    replace (Num.Qltb lower b) with true
      by (symmetry; apply Qltb_true; exact Hlt).
    unfold heading at 1. rewrite Hlab, Hrate, Hc, (IH Hrest).
    f_equal. symmetry. apply headings_lower. apply capped_below. exact Hl.
Qed.

Lemma TIERS_limits : Forall (fun tier => limit tier <> NInf) TIERS.
Proof. repeat constructor; discriminate. Qed.

(** The breakdown for a finite base amount. *)
Lemma finalState_lines serviceType b :
  (0 <= b)%Q ->
  marginal_lines (RATES serviceType) b 0 0 TIERS
    (Loop.breakdown (finalState serviceType (Fin b))).
Proof.
  intros Hb.
  assert (L : exists ext,
    Loop.breakdown (finalState serviceType (Fin b)) = [] ++ ext /\
    marginal_lines (RATES serviceType) b 0 0 TIERS ext).
  { unfold finalState.
    apply (tierLoop_lines (RATES serviceType) b TIERS (Fin 0)
             TIERS_ascending 0 (initialState (Fin b))
             b 0 (RATES_cover serviceType) eq_refl eq_refl eq_refl).
    revert Hb. qminmax. }
  destruct L as (ext & Hext & Hlines). rewrite Hext. exact Hlines.
Qed.

(** A result with a finite base amount comes from a finite parsed amount
    that is not negative. *)
Lemma bidAmount_finite serviceType raw unit d r b :
  calculationResult serviceType raw unit d = Some r ->
  bidAmount r = Fin b ->
  (0 <= b)%Q /\
  breakdown r = Loop.breakdown (finalState serviceType (Fin b)).
Proof.
  intros Hr Hb.
  destruct (calculationResult_fields _ _ _ _ _ Hr)
    as (Hguard & Hbid & Hlines & _).
  rewrite Hbid in Hb. rewrite Hb in Hlines. split; [|exact Hlines].
  clear Hr Hlines Hbid.
  destruct raw as [| | | q]; try discriminate.
  - destruct unit; discriminate.
  - cbn [Num.isNaN orb Num.ltb] in Hguard. apply Qltb_false in Hguard.
    rewrite convert_fin in Hb. injection Hb as <-.
    apply baseAmount_nonneg. exact Hguard.
Qed.

(** X9 (the lines of the breakdown).  For every result with a finite base
    amount [b] (the [bidAmount] of the result), the breakdown lists, in tier
    order and without gaps, exactly the tiers of [TIERS] that begin below
    [b] (the first begins at 0, each later one at the limit of the tier
    before it), each with its label and with the rate of the category
    printed with two decimals and '%'; so the labels are those of the
    leading tiers of [TIERS]. *)
Theorem breakdown_headings serviceType raw unit d r (b : Q) :
  calculationResult serviceType raw unit d = Some r ->
  bidAmount r = Fin b ->
  map heading (breakdown r)
    = headings (RATES serviceType) (Fin b) (Fin 0) 0 TIERS /\
  map tierLabel (breakdown r)
    = map label (firstn (List.length (breakdown r)) TIERS).
Proof.
  intros Hr Hb.
  destruct (bidAmount_finite _ _ _ _ _ _ Hr Hb) as [Hb0 ->].
  pose proof (finalState_lines serviceType b Hb0) as Hlines.
  split.
  - exact (marginal_lines_headings _ _ _ _ _ _ Hlines TIERS_limits).
  - exact (marginal_lines_labels _ _ _ _ _ _ Hlines).
Qed.

Lemma breakdown_headings_witness :
  exists r b,
    calculationResult Goods (Fin 600) wanyuan (Fin 85) = Some r /\
    bidAmount r = Fin b /\
    map heading (breakdown r) = headings (RATES Goods) (Fin b) (Fin 0) 0 TIERS.
Proof.
  destruct (calculationResult Goods (Fin 600) wanyuan (Fin 85)) as [r|] eqn:E.
  - pose proof (calculationResult_fields _ _ _ _ _ E) as (_ & Hbid & _).
    exists r, (baseAmount 600 wanyuan).
    split; [reflexivity|]. split; [exact Hbid|].
    exact (proj1 (breakdown_headings Goods (Fin 600) wanyuan (Fin 85) r
                    (baseAmount 600 wanyuan) E Hbid)).
  - vm_compute in E. discriminate.
Defined.
